(** * Ghost Identity Protection: a shallow embedding of the client code

    The development follows the JavaScript sources of the front end
    (ActionPolicies, AdminLogin, the ApiService layer) and, for the trust and
    delivery subsystem whose implementation lives in the Python back end,
    the system specification.  Strings are kept as the sequences of UTF-16
    code units JavaScript compares and slices; numbers that can be [NaN] are
    kept as such; exceptions are values of a sum type. *)

From Stdlib Require Import ZArith NArith String Ascii Lia Bool.
From Stdlib Require DecimalString.
From Stdlib Require DecimalPos.
From Stdlib.Strings Require Import Byte.
From stdpp Require Import base option list gmap.

Open Scope Z_scope.

(** ** JavaScript values used by the components *)

Module JS.

(** A JavaScript string: its code units. *)
Abbreviation jsstring := (list N).

Fixpoint lit (s : string) : jsstring :=
  match s with
  | EmptyString => []
  | String a r => N_of_ascii a :: lit r
  end.

(** Line feed, as it stands inside the template literals. *)
Definition nl : jsstring := [10%N].

(** WhiteSpace and LineTerminator code units of ECMAScript, what
    [String.prototype.trim] and [parseInt] strip. *)
Definition isWhiteSpace (c : N) : bool :=
  ((9 <=? c) && (c <=? 13) || (c =? 32) || (c =? 160) || (c =? 5760)
   || (8192 <=? c) && (c <=? 8202) || (c =? 8232) || (c =? 8233)
   || (c =? 8239) || (c =? 8287) || (c =? 12288) || (c =? 65279))%N.

Fixpoint trimStart (s : jsstring) : jsstring :=
  match s with
  | [] => []
  | c :: r => if isWhiteSpace c then trimStart r else s
  end.

Definition trimEnd (s : jsstring) : jsstring := rev (trimStart (rev s)).

Definition trim (s : jsstring) : jsstring := trimEnd (trimStart s).

(** ToBoolean on a string: only the empty string is falsy. *)
Definition truthy (s : jsstring) : bool :=
  match s with [] => false | _ => true end.

(** [a || b] on strings. *)
Definition or_else (a b : jsstring) : jsstring := if truthy a then a else b.

(** [s.charAt(0)]. *)
Definition charAt0 (s : jsstring) : jsstring :=
  match s with [] => [] | c :: _ => [c] end.

(** [s.slice(1)]. *)
Definition slice1 (s : jsstring) : jsstring :=
  match s with [] => [] | _ :: r => r end.

(** [toUpperCase] on the Basic Latin letters, the only ones the action names
    are made of. *)
Definition upper (c : N) : N :=
  if ((97 <=? c) && (c <=? 122))%N then (c - 32)%N else c.

Definition toUpperCase (s : jsstring) : jsstring := map upper s.

(** [s.replace(pat, by)] for a one-unit string pattern: the first occurrence
    only. *)
Fixpoint replace1 (pat : N) (by_ : jsstring) (s : jsstring) : jsstring :=
  match s with
  | [] => []
  | c :: r => if (c =? pat)%N then by_ ++ r else c :: replace1 pat by_ r
  end.

Fixpoint startsWith (p s : jsstring) : bool :=
  match p, s with
  | [], _ => true
  | a :: p', b :: s' => (a =? b)%N && startsWith p' s'
  | _ :: _, [] => false
  end.

(** [s.includes(p)]. *)
Fixpoint includes (p s : jsstring) : bool :=
  startsWith p s ||
  match s with
  | [] => false
  | _ :: r => includes p r
  end.

Definition streq (a b : jsstring) : bool := bool_decide (a = b).

(** A Number that came out of [parseInt] or a literal: NaN, an integer
    (with -0 kept as 0, which [===] and the conversion to a string do not
    tell apart), or an infinity. *)
Inductive jsnum := NaN | Num (z : Z) | Infinity (negative : bool).

(** [a === b] on numbers: NaN equals nothing. *)
Definition strict_eq (a b : jsnum) : bool :=
  match a, b with
  | Num x, Num y => x =? y
  | Infinity s, Infinity t => eqb s t
  | _, _ => false
  end.

(** The Number value of a mathematical integer: the nearest double, and of
    two equally near the one with the even significand.  An integer of up to
    53 bits is its own value; a longer one keeps its 53 leading bits, rounded;
    from 2^1024 on the rounded value is an infinity. *)
Definition number (z : Z) : jsnum :=
  let a := Z.abs z in
  let e := Z.log2 a - 52 in
  if e <=? 0 then Num z
  else
    let q := Z.shiftr a e in
    let r := Z.land a (Z.ones e) in
    let half := Z.shiftl 1 (e - 1) in
    let q := if (r <? half) || (r =? half) && Z.even q then q else q + 1 in
    let m := Z.shiftl q e in
    if 1024 <=? Z.log2 m then Infinity (z <? 0)
    else Num (if z <? 0 then - m else m).

Definition digit (radix : N) (c : N) : option N :=
  let v :=
    if ((48 <=? c) && (c <=? 57))%N then Some (c - 48)%N
    else if ((97 <=? c) && (c <=? 122))%N then Some (c - 87)%N
    else if ((65 <=? c) && (c <=? 90))%N then Some (c - 55)%N
    else None in
  match v with
  | Some d => if (d <? radix)%N then Some d else None
  | None => None
  end.

(** The longest prefix of radix digits, read as a number; [None] when it is
    empty. *)
Fixpoint digits (radix : N) (acc : option N) (s : jsstring) : option N :=
  match s with
  | [] => acc
  | c :: r =>
      match digit radix c with
      | Some d => digits radix (Some (default 0%N acc * radix + d)%N) r
      | None => acc
      end
  end.

(** [parseInt(s)] with no radix argument: leading white space, a sign, an
    optional 0x prefix, then digits.  The result is the Number value of the
    integer the digits write, every digit counted. *)
Definition parseInt (s : jsstring) : jsnum :=
  let s := trimStart s in
  let '(neg, s) :=
    match s with
    | 45%N :: r => (true, r)
    | 43%N :: r => (false, r)
    | _ => (false, s)
    end in
  let '(radix, s) :=
    match s with
    | 48%N :: 120%N :: r => (16%N, r)
    | 48%N :: 88%N :: r => (16%N, r)
    | _ => (10%N, s)
    end in
  match digits radix None s with
  | None => NaN
  | Some n => number (if neg then - Z.of_N n else Z.of_N n)
  end.

(** The decimal digits of an integer, with its sign. *)
Definition decimal (z : Z) : jsstring :=
  lit (DecimalString.NilZero.string_of_int (Z.to_int z)).

(** The digits of a Number as its conversion to a string chooses them: for
    the double [x], at least 2^53, the [k] digits [s] and the exponent [n]
    with [s * 10^(n-k)] of Number value [x] and [k] as small as possible, and
    among these the nearest to [x] (of two equally near the even one).
    [nd] is the number of digits of [x]; no more than [nd] digits are needed,
    and [n] is [nd], or [nd + 1] when the digits round up to a power of ten. *)
Definition candidates (x nd k : Z) : list (Z * Z) :=
  n ← [nd; nd + 1];
  let p := 10 ^ (n - k) in
  s ← [x / p; x / p + 1];
  if (10 ^ (k - 1) <=? s) && (s <? 10 ^ k)
     && match number (s * p) with Num y => y =? x | _ => false end
  then [(s, n)] else [].

Definition nearer (x k : Z) (a b : Z * Z) : Z * Z :=
  let da := Z.abs (fst a * 10 ^ (snd a - k) - x) in
  let db := Z.abs (fst b * 10 ^ (snd b - k) - x) in
  if (da <? db) || (da =? db) && Z.even (fst a) then a else b.

Fixpoint shortest (fuel : nat) (x nd k : Z) : Z * Z * Z :=
  match fuel with
  | O => (x, nd, nd)
  | S fuel =>
      match candidates x nd k with
      | c :: cs => (foldl (nearer x k) c cs, k)
      | [] => shortest fuel x nd (k + 1)
      end
  end.

(** The rendering of the digits [s], [k] of them, at the exponent [n]: in
    full with [n - k] zeros up to 21 digits, and from 22 digits on with an
    exponent. *)
Definition render_digits (s n k : Z) : jsstring :=
  if n <=? 21 then decimal s ++ replicate (Z.to_nat (n - k)) 48%N
  else
    match decimal s with
    | [] => []
    | d :: ds =>
        d :: match ds with [] => [] | _ => 46%N :: ds end
        ++ lit "e+" ++ decimal (n - 1)
    end.

(** The rendering of an integer Number inside a template literal and by
    [String]: the Number [number z].  Up to 2^53 the digits are those of the
    integer. *)
Definition of_Z (z : Z) : jsstring :=
  match number z with
  | NaN => lit "NaN"
  | Infinity negative => if negative then lit "-Infinity" else lit "Infinity"
  | Num x =>
      if Z.abs x <? 9007199254740992 then decimal x
      else
        let nd := Z.of_nat (length (decimal (Z.abs x))) in
        let '(s, n, k) := shortest (Z.to_nat nd) (Z.abs x) nd 1 in
        (if x <? 0 then lit "-" else []) ++ render_digits s n k
  end.

(** A computation that returns or throws. *)
Inductive completion (E A : Type) : Type :=
  | Return (a : A)
  | Throw (e : E).
Arguments Return {E A} a.
Arguments Throw {E A} e.

Definition bind {E A B} (c : completion E A) (k : A -> completion E B)
  : completion E B :=
  match c with
  | Return a => k a
  | Throw e => Throw e
  end.

(** [try { c } catch (e) { h e }]. *)
Definition try_catch {E A} (c : completion E A) (h : E -> completion E A)
  : completion E A :=
  match c with
  | Return a => Return a
  | Throw e => h e
  end.

Definition returns {E A} (c : completion E A) : bool :=
  match c with Return _ => true | Throw _ => false end.

End JS.

Notation "x <- c ;; k" := (JS.bind c (fun x => k))
  (at level 100, c at next level, right associativity).

(** ** Numbers through strings

    An integer written in decimal, as it stands in the [value] of an
    option or in a template literal, is read back by [parseInt] as long as
    it is a safe integer, below 2^53 in absolute value. *)

Module JSFacts.
Import JS.

(** The digits of a decimal numeral read after [acc]. *)
Fixpoint read (d : Decimal.uint) (acc : N) : N :=
  match d with
  | Decimal.Nil => acc
  | Decimal.D0 d => read d (acc * 10 + 0)
  | Decimal.D1 d => read d (acc * 10 + 1)
  | Decimal.D2 d => read d (acc * 10 + 2)
  | Decimal.D3 d => read d (acc * 10 + 3)
  | Decimal.D4 d => read d (acc * 10 + 4)
  | Decimal.D5 d => read d (acc * 10 + 5)
  | Decimal.D6 d => read d (acc * 10 + 6)
  | Decimal.D7 d => read d (acc * 10 + 7)
  | Decimal.D8 d => read d (acc * 10 + 8)
  | Decimal.D9 d => read d (acc * 10 + 9)
  end%N.

Lemma digits_string_of_uint (d : Decimal.uint) : forall acc,
  digits 10 (Some acc) (lit (DecimalString.NilEmpty.string_of_uint d))
  = Some (read d acc).
Proof.
  induction d; intros acc; simpl; try reflexivity; apply IHd.
Qed.

Lemma read_pos (d : Decimal.uint) : forall acc,
  read d (Npos acc) = Npos (Pos.of_uint_acc d acc).
Proof.
  induction d; intros acc; simpl; try reflexivity;
    try (rewrite <- IHd; f_equal; lia).
Qed.

Lemma read_0 (d : Decimal.uint) : read d 0 = N.of_uint d.
Proof.
  unfold N.of_uint.
  induction d; simpl; try reflexivity; try exact IHd; apply read_pos.
Qed.

Lemma parseInt_uint (d : Decimal.uint) :
  d <> Decimal.Nil ->
  parseInt (lit (DecimalString.NilEmpty.string_of_uint d))
  = number (Z.of_N (read d 0))
  /\ parseInt (45%N :: lit (DecimalString.NilEmpty.string_of_uint d))
     = number (- Z.of_N (read d 0)).
Proof.
  intros NN. unfold parseInt.
  destruct d as [|d|d|d|d|d|d|d|d|d|d]; try congruence;
    destruct d as [|d|d|d|d|d|d|d|d|d|d]; simpl;
    rewrite ?digits_string_of_uint; split; reflexivity.
Qed.

(** [parseInt] reads the decimal digits of an integer as its Number
    value. *)
Lemma parseInt_decimal (z : Z) : parseInt (decimal z) = number z.
Proof.
  unfold decimal.
  destruct z as [|p|p]; [reflexivity| |];
    simpl Z.to_int; unfold DecimalString.NilZero.string_of_int,
      DecimalString.NilZero.string_of_uint;
    pose proof (DecimalPos.Unsigned.to_uint_nonnil p) as NN;
    pose proof (DecimalPos.Unsigned.of_to p) as OT;
    destruct (parseInt_uint (Pos.to_uint p) NN) as [Pp Pn];
    rewrite read_0 in Pp, Pn; unfold N.of_uint in Pp, Pn; rewrite OT in Pp, Pn;
    destruct (Pos.to_uint p) eqn:E; try congruence.
  all: try exact Pp; try exact Pn.
Qed.

(** A safe integer is its own Number value. *)
Lemma number_safe (z : Z) : Z.abs z < 9007199254740992 -> number z = Num z.
Proof.
  intros S53. unfold number.
  assert (L : Z.log2 (Z.abs z) - 52 <= 0).
  { destruct (Z.eq_dec (Z.abs z) 0) as [->|NZ]; [simpl; lia|].
    assert (Z.log2 (Z.abs z) < 53); [|lia].
    apply Z.log2_lt_pow2; [lia|exact S53]. }
  apply Z.leb_le in L. now rewrite L.
Qed.

(** Its string is its decimal digits. *)
Lemma of_Z_safe (z : Z) : Z.abs z < 9007199254740992 -> of_Z z = decimal z.
Proof.
  intros S53. unfold of_Z. rewrite (number_safe z S53).
  apply Z.ltb_lt in S53. now rewrite S53.
Qed.

Lemma parseInt_of_Z (z : Z) :
  Z.abs z < 9007199254740992 -> parseInt (of_Z z) = Num z.
Proof.
  intros S53. now rewrite (of_Z_safe z S53), parseInt_decimal, number_safe.
Qed.

End JSFacts.

(** ** ActionPolicies: the policy form, its validation and the preview *)

Module ActionPolicies.
Import JS.

Record Asset := {
  id : Z;
  platformName : jsstring;
  assetType : jsstring;
  accountIdentifier : jsstring
}.

(** The [assets] state of the component: never updated after its
    initialisation. *)
Definition assets : list Asset := [
  {| id := 1; platformName := lit "Gmail"; assetType := lit "email";
     accountIdentifier := lit "user@gmail.com" |};
  {| id := 2; platformName := lit "Facebook"; assetType := lit "social_media";
     accountIdentifier := lit "facebook.com/user" |};
  {| id := 3; platformName := lit "Chase Bank"; assetType := lit "bank";
     accountIdentifier := lit "****1234" |}
].

(** The values the action select offers. *)
Inductive ActionType := Delete | Memorialize | Transfer | Lock.

(** The string an action is in the JavaScript state. *)
Definition action_name (a : ActionType) : jsstring :=
  match a with
  | Delete => lit "delete"
  | Memorialize => lit "memorialize"
  | Transfer => lit "transfer"
  | Lock => lit "lock"
  end.

(** The form state [newPolicy]: [assetId] is the select's string value. *)
Record NewPolicy := {
  np_assetId : jsstring;
  np_actionType : ActionType;
  np_naturalLanguagePolicy : jsstring;
  np_specificInstructions : jsstring;
  np_conditions : jsstring;
  np_priority : jsnum
}.

Definition emptyPolicy : NewPolicy := {|
  np_assetId := [];
  np_actionType := Delete;
  np_naturalLanguagePolicy := [];
  np_specificInstructions := [];
  np_conditions := [];
  np_priority := Num 1
|}.

(** A stored policy: the form's fields, then what [handleSubmit] adds.
    [createdAt] is the instant whose ISO rendering the code stores. *)
Record Policy := {
  p_assetId : jsnum;
  p_actionType : ActionType;
  p_naturalLanguagePolicy : jsstring;
  p_specificInstructions : jsstring;
  p_conditions : jsstring;
  p_priority : jsnum;
  p_id : Z;
  p_platformName : jsstring;
  p_assetType : jsstring;
  p_accountIdentifier : jsstring;
  p_status : jsstring;
  p_createdAt : Z
}.

Record Notification := {
  subject : jsstring;
  body : jsstring;
  requiredDocuments : list jsstring
}.

Record Preview := {
  pv_policy : Policy;
  pv_asset : option Asset;
  pv_generatedNotification : Notification
}.

Record State := {
  policies : list Policy;
  newPolicy : NewPolicy;
  showPreview : bool;
  previewPolicy : option Preview
}.

(** Reading a property of [undefined]. *)
Inductive Exn := TypeError_undefined (property : jsstring).

(** [assets.find(asset => asset.id === n)]. *)
Definition findAsset (n : jsnum) : option Asset :=
  find (fun asset => strict_eq (Num (id asset)) n) assets.

(** [selectedAsset?.field || ''] *)
Definition field_or_empty (a : option Asset) (f : Asset -> jsstring) : jsstring :=
  or_else (from_option f [] a) [].

(** [handleSubmit]: [now] is what [Date.now()] returns and [created] the
    instant of [new Date()]. *)
Definition handleSubmit (now created : Z) (st : State) : State :=
  let np := newPolicy st in
  let selectedAsset := findAsset (parseInt (np_assetId np)) in
  let policy := {|
    p_actionType := np_actionType np;
    p_naturalLanguagePolicy := np_naturalLanguagePolicy np;
    p_specificInstructions := np_specificInstructions np;
    p_conditions := np_conditions np;
    p_priority := np_priority np;
    p_id := now;
    p_assetId := parseInt (np_assetId np);
    p_platformName := field_or_empty selectedAsset platformName;
    p_assetType := field_or_empty selectedAsset assetType;
    p_accountIdentifier := field_or_empty selectedAsset accountIdentifier;
    p_status := lit "active";
    p_createdAt := created
  |} in
  {| policies := policies st ++ [policy];
     newPolicy := emptyPolicy;
     showPreview := showPreview st;
     previewPolicy := previewPolicy st |}.

(** The form as the user fills it between two submissions. *)
Definition fillForm (np : NewPolicy) (st : State) : State :=
  {| policies := policies st; newPolicy := np;
     showPreview := showPreview st; previewPolicy := previewPolicy st |}.

Definition removePolicy (i : Z) (st : State) : State :=
  {| policies := filter (fun policy => p_id policy <> i) (policies st);
     newPolicy := newPolicy st;
     showPreview := showPreview st; previewPolicy := previewPolicy st |}.

(** The [actionText] table. *)
Definition actionText (a : ActionType) : jsstring :=
  match a with
  | Delete => lit "permanently delete"
  | Memorialize => lit "memorialize"
  | Transfer => lit "transfer ownership of"
  | Lock => lit "lock and secure"
  end.

(** [asset.field] where [asset] may be [undefined]. *)
Definition get (a : option Asset) (f : Asset -> jsstring) (name : string)
  : completion Exn jsstring :=
  match a with
  | Some x => Return (f x)
  | None => Throw (TypeError_undefined (lit name))
  end.

(** [generateMockNotification]: the properties of the object literal are
    evaluated in order, and inside the body the substitutions from left to
    right. *)
Definition generateMockNotification (policy : Policy) (asset : option Asset)
  : completion Exn Notification :=
  let action := actionText (p_actionType policy) in
  let subject_ :=
    lit "Death Notification - Request to " ++ action ++ lit " account" in
  platform1 <- get asset platformName "platformName";;
  platform2 <- get asset platformName "platformName";;
  account <- get asset accountIdentifier "accountIdentifier";;
  type <- get asset assetType "assetType";;
  let name := action_name (p_actionType policy) in
  let body_ :=
    lit "Dear " ++ platform1 ++ lit " Support Team," ++ nl ++ nl
    ++ lit "I am writing to notify you of the death of the account holder and request that you "
    ++ action ++ lit " the following account:" ++ nl ++ nl
    ++ lit "Account Information:" ++ nl
    ++ lit "- Platform: " ++ platform2 ++ nl
    ++ lit "- Account Identifier: " ++ account ++ nl
    ++ lit "- Account Type: " ++ replace1 95%N (lit " ") type ++ nl ++ nl
    ++ lit "Requested Action: "
    ++ (toUpperCase (charAt0 name) ++ slice1 name) ++ nl ++ nl
    ++ (if truthy (p_specificInstructions policy)
        then lit "Special Instructions: " ++ p_specificInstructions policy
        else []) ++ nl ++ nl
    ++ (if truthy (p_conditions policy)
        then lit "Conditions: " ++ p_conditions policy
        else []) ++ nl ++ nl
    ++ lit "Please find attached the death certificate and any required documentation. If you need additional information or documentation, please contact me at the information provided below."
    ++ nl ++ nl
    ++ lit "Thank you for your assistance during this difficult time."
    ++ nl ++ nl
    ++ lit "Sincerely," ++ nl
    ++ lit "[Trusted Contact Name]" ++ nl
    ++ lit "[Contact Information]" in
  Return {| subject := subject_; body := body_;
            requiredDocuments :=
              [lit "Death Certificate"; lit "Proof of Authority";
               lit "Government ID"] |}.

(** [previewPolicyExecution]: the notification is computed while the argument
    of [setPreviewPolicy] is built, so a throw leaves the state as it was. *)
Definition previewPolicyExecution (policy : Policy) (st : State)
  : completion Exn State :=
  let selectedAsset := findAsset (p_assetId policy) in
  generated <- generateMockNotification policy selectedAsset;;
  Return {| policies := policies st;
            newPolicy := newPolicy st;
            showPreview := true;
            previewPolicy :=
              Some {| pv_policy := policy; pv_asset := selectedAsset;
                      pv_generatedNotification := generated |} |}.

(** [errors.push(x)]. *)
Definition push {A} (errors : list A) (x : A) : list A := errors ++ [x].

Definition validatePolicy (np : NewPolicy) : list jsstring :=
  let errors := [] in
  let errors :=
    if negb (truthy (np_assetId np))
    then push errors (lit "Please select an asset") else errors in
  let errors :=
    if negb (truthy (trim (np_naturalLanguagePolicy np)))
    then push errors (lit "Please provide a policy description") else errors in
  errors.

(** The submit button is disabled while there are validation errors. *)
Definition submitDisabled (np : NewPolicy) : bool :=
  bool_decide (0 < length (validatePolicy np))%nat.

(** *** Notions the properties are stated with *)


(** The fields the form requires, in the order they are checked. *)
Inductive RequiredField := F_assetId | F_naturalLanguagePolicy.



Definition message (f : RequiredField) : jsstring :=
  match f with
  | F_assetId => lit "Please select an asset"
  | F_naturalLanguagePolicy => lit "Please provide a policy description"
  end.


(** An asset id that one of the registered assets carries. *)
Definition registered (n : jsnum) : Prop :=
  exists a, a ∈ assets /\ Num (id a) = n.

(** What the rendering reads of its two arguments: the action, the two
    optional texts, and the asset's name, identifier and type. *)
Definition render_inputs (policy : Policy) (asset : option Asset) :=
  (p_actionType policy, p_specificInstructions policy, p_conditions policy,
   (fun a => (platformName a, accountIdentifier a, assetType a)) <$> asset).

(** The notification a preview left in the state. *)
Definition generated (c : completion Exn State) : option Notification :=
  match c with
  | Return st => pv_generatedNotification <$> previewPolicy st
  | Throw _ => None
  end.

(** Two stored policies with the same content: all fields but the stamps
    [id] and [createdAt]. *)
Definition same_content (p q : Policy) : Prop :=
  p_assetId p = p_assetId q /\ p_actionType p = p_actionType q
  /\ p_naturalLanguagePolicy p = p_naturalLanguagePolicy q
  /\ p_specificInstructions p = p_specificInstructions q
  /\ p_conditions p = p_conditions q /\ p_priority p = p_priority q
  /\ p_platformName p = p_platformName q /\ p_assetType p = p_assetType q
  /\ p_accountIdentifier p = p_accountIdentifier q /\ p_status p = p_status q.

(** The policy a submission of the form [np] stores. *)
Definition created (np : NewPolicy) (now created_ : Z) : Policy :=
  {| p_actionType := np_actionType np;
     p_naturalLanguagePolicy := np_naturalLanguagePolicy np;
     p_specificInstructions := np_specificInstructions np;
     p_conditions := np_conditions np;
     p_priority := np_priority np;
     p_id := now;
     p_assetId := parseInt (np_assetId np);
     p_platformName :=
       field_or_empty (findAsset (parseInt (np_assetId np))) platformName;
     p_assetType :=
       field_or_empty (findAsset (parseInt (np_assetId np))) assetType;
     p_accountIdentifier :=
       field_or_empty (findAsset (parseInt (np_assetId np))) accountIdentifier;
     p_status := lit "active";
     p_createdAt := created_ |}.

(** The [value] of the option of an asset: its id, as a string. *)
Definition optionValue (a : Asset) : jsstring := of_Z (id a).

(** Filling the form with [np] and submitting it, twice over. *)
Definition submitTwice (np : NewPolicy) (t1 c1 t2 c2 : Z) (st : State) : State :=
  handleSubmit t2 c2 (fillForm np (handleSubmit t1 c1 (fillForm np st))).

Definition initialState : State := {|
  policies := []; newPolicy := emptyPolicy;
  showPreview := false; previewPolicy := None |}.

(** Sample data. *)
Definition lockChase : NewPolicy := {|
  np_assetId := lit "3"; np_actionType := Lock;
  np_naturalLanguagePolicy := lit "Lock the account";
  np_specificInstructions := []; np_conditions := [];
  np_priority := Num 1 |}.



Definition chase : Asset := {|
  id := 3; platformName := lit "Chase Bank"; assetType := lit "bank";
  accountIdentifier := lit "****1234" |}.

Definition chase_reimported : Asset := {|
  id := 17; platformName := lit "Chase Bank"; assetType := lit "bank";
  accountIdentifier := lit "****1234" |}.

Definition lockPolicy (i created : Z) (prio : jsnum) (text : jsstring) : Policy := {|
  p_assetId := Num 3; p_actionType := Lock;
  p_naturalLanguagePolicy := text;
  p_specificInstructions := lit "Notify the executor";
  p_conditions := [];
  p_priority := prio; p_id := i;
  p_platformName := lit "Chase Bank"; p_assetType := lit "bank";
  p_accountIdentifier := lit "****1234"; p_status := lit "active";
  p_createdAt := created |}.

(** *** Strings *)







(** *** Validation *)


Example validatePolicy_empty_form :
  validatePolicy emptyPolicy
  = [lit "Please select an asset"; lit "Please provide a policy description"].
Proof. reflexivity. Qed.

Example validatePolicy_filled_form : validatePolicy lockChase = [].
Proof. reflexivity. Qed.

(** *** Looking up the asset *)

Lemma strict_eq_Num (x : Z) (b : jsnum) :
  strict_eq (Num x) b = true <-> b = Num x.
Proof.
  destruct b as [|y|t]; simpl; split; try discriminate.
  - intros E. apply Z.eqb_eq in E. now subst.
  - intros [= ->]. apply Z.eqb_refl.
Qed.

Lemma findAsset_Some (n : jsnum) (a : Asset) :
  findAsset n = Some a -> a ∈ assets /\ Num (id a) = n.
Proof.
  unfold findAsset. intros F. apply find_some in F as [I E].
  split; [now apply list_elem_of_In|].
  apply strict_eq_Num in E. now subst.
Qed.

Lemma findAsset_None (n : jsnum) :
  findAsset n = None <-> ~ registered n.
Proof.
  unfold findAsset, registered. split.
  - intros F (a & I & E). apply list_elem_of_In in I.
    pose proof (find_none _ _ F a I) as Hn. simpl in Hn.
    rewrite <- E in Hn. simpl in Hn. rewrite Z.eqb_refl in Hn. discriminate.
  - intros Hn. destruct (find _ assets) as [a|] eqn:F; [|reflexivity].
    exfalso. apply Hn. exists a. now apply findAsset_Some.
Qed.

Lemma findAsset_registered (a : Asset) :
  a ∈ assets -> findAsset (Num (id a)) = Some a.
Proof.
  intros I. unfold assets in I. rewrite !elem_of_cons in I.
  destruct I as [->|[->|[->|I]]]; [reflexivity..|].
  now apply elem_of_nil in I.
Qed.

(** *** The preview *)

Lemma preview_registered (policy : Policy) (a : Asset) (st : State) :
  findAsset (p_assetId policy) = Some a ->
  exists n,
    generateMockNotification policy (Some a) = Return n
    /\ previewPolicyExecution policy st
       = Return {| policies := policies st; newPolicy := newPolicy st;
                   showPreview := true;
                   previewPolicy :=
                     Some {| pv_policy := policy; pv_asset := Some a;
                             pv_generatedNotification := n |} |}
    /\ subject n
       = lit "Death Notification - Request to "
         ++ actionText (p_actionType policy) ++ lit " account"
    /\ (exists rest,
          body n = lit "Dear " ++ platformName a ++ lit " Support Team," ++ rest)
    /\ requiredDocuments n
       = [lit "Death Certificate"; lit "Proof of Authority";
          lit "Government ID"].
Proof.
  intros F. unfold previewPolicyExecution. rewrite F.
  eexists. split; [reflexivity|]. split; [reflexivity|].
  split; [reflexivity|]. split; [eexists; reflexivity|reflexivity].
Qed.

Lemma preview_unregistered (policy : Policy) (st : State) :
  findAsset (p_assetId policy) = None ->
  previewPolicyExecution policy st
  = Throw (TypeError_undefined (lit "platformName")).
Proof. intros F. unfold previewPolicyExecution. now rewrite F. Qed.

(** C8: for a policy whose [assetId] is the id of a registered asset the
    preview returns, and the state it returns shows a preview that holds the
    policy, that asset and the notification generated for them, with its
    subject, its body addressed to the asset's platform and its three
    required documents; for every other policy the asset is undefined and
    reading its [platformName] throws, before the state is updated. *)
Theorem preview_returns_iff_asset_registered (policy : Policy) (st : State) :
  (registered (p_assetId policy) <->
     returns (previewPolicyExecution policy st) = true)
  /\ (forall a, a ∈ assets -> Num (id a) = p_assetId policy ->
        exists n,
          generateMockNotification policy (Some a) = Return n
          /\ previewPolicyExecution policy st
             = Return {| policies := policies st; newPolicy := newPolicy st;
                         showPreview := true;
                         previewPolicy :=
                           Some {| pv_policy := policy; pv_asset := Some a;
                                   pv_generatedNotification := n |} |}
          /\ subject n
             = lit "Death Notification - Request to "
               ++ actionText (p_actionType policy) ++ lit " account"
          /\ (exists rest,
                body n = lit "Dear " ++ platformName a
                         ++ lit " Support Team," ++ rest)
          /\ requiredDocuments n
             = [lit "Death Certificate"; lit "Proof of Authority";
                lit "Government ID"])
  /\ (~ registered (p_assetId policy) <->
        previewPolicyExecution policy st
        = Throw (TypeError_undefined (lit "platformName")))
  /\ generateMockNotification policy None
     = Throw (TypeError_undefined (lit "platformName"))
  /\ (forall a, returns (generateMockNotification policy (Some a)) = true).
Proof.
  split; [|split; [|split; [|split; [reflexivity|reflexivity]]]].
  - destruct (findAsset (p_assetId policy)) as [a|] eqn:F.
    + destruct (preview_registered policy a st F) as (n & _ & -> & _).
      apply findAsset_Some in F as [I E].
      split; [reflexivity|]. intros _. exists a. now split.
    + rewrite (preview_unregistered policy st F).
      apply findAsset_None in F. split; [tauto|discriminate].
  - intros a I E. apply preview_registered.
    rewrite <- E. now apply findAsset_registered.
  - destruct (findAsset (p_assetId policy)) as [a|] eqn:F.
    + destruct (preview_registered policy a st F) as (n & _ & -> & _).
      apply findAsset_Some in F as [I E].
      split; [|discriminate]. intros NR. exfalso. apply NR. exists a. now split.
    + rewrite (preview_unregistered policy st F).
      apply findAsset_None in F. tauto.
Qed.



Example preview_of_unregistered_asset :
  previewPolicyExecution
    {| p_assetId := NaN; p_actionType := Delete;
       p_naturalLanguagePolicy := lit "Delete it";
       p_specificInstructions := []; p_conditions := [];
       p_priority := Num 1; p_id := 5; p_platformName := [];
       p_assetType := []; p_accountIdentifier := [];
       p_status := lit "active"; p_createdAt := 5 |} initialState
  = Throw (TypeError_undefined (lit "platformName")).
Proof. reflexivity. Qed.

(** C4: the notification is a function of the rendering inputs alone.  Two
    calls that agree on the action, the instructions, the conditions and the
    asset's name, identifier and type return the same notification (or throw
    the same error), whatever the id, the creation time, the priority and the
    description of the policy and whatever the component's state; any key
    computed from the result agrees as well. *)
Theorem generateMockNotification_deterministic
    (p1 p2 : Policy) (a1 a2 : option Asset) :
  render_inputs p1 a1 = render_inputs p2 a2 ->
  generateMockNotification p1 a1 = generateMockNotification p2 a2
  /\ (forall (K : Type) (key : completion Exn Notification -> K),
        key (generateMockNotification p1 a1)
        = key (generateMockNotification p2 a2))
  /\ (forall st1 st2,
        p_assetId p1 = p_assetId p2 ->
        generated (previewPolicyExecution p1 st1)
        = generated (previewPolicyExecution p2 st2)).
Proof.
  unfold render_inputs. intros E.
  assert (G : forall b1 b2,
    (fun a => (platformName a, accountIdentifier a, assetType a)) <$> b1
    = (fun a => (platformName a, accountIdentifier a, assetType a)) <$> b2 ->
    generateMockNotification p1 b1 = generateMockNotification p2 b2).
  { injection E as Ea Ei Ec _. intros [b1|] [b2|]; simpl; try discriminate.
    - intros [= En Ei' Et]. unfold generateMockNotification. simpl.
      now rewrite Ea, Ei, Ec, En, Ei', Et.
    - reflexivity. }
  injection E as _ _ _ Eas.
  split; [now apply G|]. split.
  - intros K key. now rewrite (G a1 a2 Eas).
  - intros st1 st2 Eid. unfold previewPolicyExecution. rewrite Eid.
    rewrite (G (findAsset (p_assetId p2)) (findAsset (p_assetId p2)) eq_refl).
    now destruct (generateMockNotification p2 _).
Qed.

Lemma generateMockNotification_deterministic_witness :
  render_inputs (lockPolicy 1 1700000000000 (Num 1) (lit "Lock it"))
                (Some chase)
  = render_inputs (lockPolicy 2 1800000000000 (Num 3) (lit "Freeze it"))
                  (Some chase_reimported)
  /\ generateMockNotification
       (lockPolicy 1 1700000000000 (Num 1) (lit "Lock it")) (Some chase)
     = generateMockNotification
         (lockPolicy 2 1800000000000 (Num 3) (lit "Freeze it"))
         (Some chase_reimported).
Proof.
  split; [reflexivity|].
  exact (proj1 (generateMockNotification_deterministic
                  (lockPolicy 1 1700000000000 (Num 1) (lit "Lock it"))
                  (lockPolicy 2 1800000000000 (Num 3) (lit "Freeze it"))
                  (Some chase) (Some chase_reimported) eq_refl)).
Defined.

(** *** Submitting the form *)

(** X17: every submission appends one new record stamped with the clock,
    and nothing is looked up before.  After the same form is submitted twice
    the list is two records longer; the two records agree on every field but
    [id] and [createdAt]. *)
Theorem handleSubmit_always_appends
    (np : NewPolicy) (t1 c1 t2 c2 : Z) (st : State) :
  exists p q,
    policies (submitTwice np t1 c1 t2 c2 st) = policies st ++ [p; q]
    /\ p_id p = t1 /\ p_id q = t2
    /\ p_createdAt p = c1 /\ p_createdAt q = c2
    /\ same_content p q
    /\ length (policies (submitTwice np t1 c1 t2 c2 st))
       = (length (policies st) + 2)%nat
    /\ newPolicy (submitTwice np t1 c1 t2 c2 st) = emptyPolicy.
Proof.
  unfold submitTwice, handleSubmit, fillForm. simpl.
  eexists _, _. split.
  - rewrite <- app_assoc. simpl. reflexivity.
  - simpl. repeat split. rewrite <- app_assoc, length_app. reflexivity.
Qed.

(** The same form submitted twice, half a second apart, into an empty
    list leaves two records, with two ids. *)
Example handleSubmit_twice_two_records :
  length (policies (submitTwice lockChase 1700000000000 1700000000000
                      1700000000500 1700000000500 initialState)) = 2%nat
  /\ length (policies (submitTwice lockChase 1700000000000 1700000000000
                         1700000000500 1700000000500 initialState)) <> 1%nat
  /\ p_id <$> policies (submitTwice lockChase 1700000000000 1700000000000
                          1700000000500 1700000000500 initialState)
     = [1700000000000; 1700000000500].
Proof. repeat split; [discriminate]. Qed.

(** *** Submitting, removing and previewing together *)

Lemma handleSubmit_policies (now c : Z) (st : State) :
  policies (handleSubmit now c st) = policies st ++ [created (newPolicy st) now c].
Proof. reflexivity. Qed.

Lemma removePolicy_policies (i : Z) (st : State) :
  policies (removePolicy i st) = filter (fun p => p_id p <> i) (policies st).
Proof. reflexivity. Qed.

(** X1: removing by the stamp of a submission removes the new record and
    every older record with the same stamp; it gives the list back as it was
    when the stamp is fresh.  Removing by another id keeps the new record. *)
Theorem removePolicy_after_handleSubmit (now c : Z) (st : State) :
  policies (removePolicy now (handleSubmit now c st))
  = policies (removePolicy now st)
  /\ (Forall (fun p => p_id p <> now) (policies st) ->
      policies (removePolicy now (handleSubmit now c st)) = policies st)
  /\ (forall p, p ∈ policies (removePolicy now (handleSubmit now c st)) ->
        p ∈ policies st /\ p_id p <> now)
  /\ (forall i, i <> now ->
        policies (removePolicy i (handleSubmit now c st))
        = policies (removePolicy i st) ++ [created (newPolicy st) now c]).
Proof.
  rewrite !removePolicy_policies, !handleSubmit_policies.
  rewrite filter_app, filter_cons_False, filter_nil, app_nil_r by (simpl; tauto).
  split; [reflexivity|]. split; [|split].
  - intros F. clear c. induction (policies st) as [|p l IH]; [reflexivity|].
    inversion F as [|? ? Hp Hl]; subst.
    rewrite filter_cons_True by exact Hp. f_equal. now apply IH.
  - intros p Hp. apply list_elem_of_filter in Hp as [Hi Hp]. now split.
  - intros i Ne. rewrite removePolicy_policies, handleSubmit_policies, filter_app.
    rewrite filter_cons_True, filter_nil by (simpl; congruence). reflexivity.
Qed.

(** X2: the id an option carries comes back from [parseInt]: a form whose
    [assetId] is the string of a safe integer (below 2^53 in absolute value)
    is stored with that integer as its [assetId]. *)
Theorem handleSubmit_reads_the_option_value
    (z : Z) (now c : Z) (st : State) :
  Z.abs z < 9007199254740992 ->
  np_assetId (newPolicy st) = of_Z z ->
  exists p,
    policies (handleSubmit now c st) = policies st ++ [p]
    /\ p_assetId p = Num z
    /\ (registered (Num z) <-> p_platformName p <> []).
Proof.
  intros S53 E. exists (created (newPolicy st) now c).
  split; [apply handleSubmit_policies|].
  unfold created. cbn [p_assetId p_platformName].
  rewrite E, (JSFacts.parseInt_of_Z z S53). split; [reflexivity|].
  destruct (findAsset (Num z)) as [a|] eqn:F.
  - pose proof (findAsset_Some _ _ F) as [I Ea].
    split; [|intros _; exists a; now split].
    intros _. unfold assets in I. rewrite !elem_of_cons in I.
    destruct I as [->|[->|[->|I]]]; [discriminate..|].
    now apply elem_of_nil in I.
  - apply findAsset_None in F. split; [intros R; contradiction|].
    intros N. now destruct N.
Qed.

Lemma handleSubmit_reads_the_option_value_witness :
  exists p,
    policies (handleSubmit 1700000000000 1700000000000 (fillForm lockChase initialState))
    = policies (fillForm lockChase initialState) ++ [p]
    /\ p_assetId p = Num 3
    /\ (registered (Num 3) <-> p_platformName p <> []).
Proof.
  refine (handleSubmit_reads_the_option_value 3 1700000000000 1700000000000
            (fillForm lockChase initialState) _ eq_refl).
  reflexivity.
Defined.

Lemma optionValue_read (a : Asset) :
  a ∈ assets -> parseInt (optionValue a) = Num (id a).
Proof.
  intros I. unfold assets in I. rewrite !elem_of_cons in I.
  destruct I as [->|[->|[->|I]]]; [reflexivity..|].
  now apply elem_of_nil in I.
Qed.

(** X3: a policy submitted with the option of a registered asset carries
    that asset's name, type and identifier, and its preview returns, with
    that asset and a notification; a policy submitted with an [assetId] that
    is no registered id carries empty strings, and its preview throws. *)
Theorem submitted_policy_preview (np : NewPolicy) (now c : Z) (st : State) :
  (forall a, a ∈ assets -> np_assetId np = optionValue a ->
     p_assetId (created np now c) = Num (id a)
     /\ p_platformName (created np now c) = platformName a
     /\ p_assetType (created np now c) = assetType a
     /\ p_accountIdentifier (created np now c) = accountIdentifier a
     /\ exists n,
          generateMockNotification (created np now c) (Some a) = Return n
          /\ previewPolicyExecution (created np now c) st
             = Return {| policies := policies st; newPolicy := newPolicy st;
                         showPreview := true;
                         previewPolicy :=
                           Some {| pv_policy := created np now c;
                                   pv_asset := Some a;
                                   pv_generatedNotification := n |} |})
  /\ (~ registered (parseInt (np_assetId np)) ->
      p_platformName (created np now c) = []
      /\ p_assetType (created np now c) = []
      /\ p_accountIdentifier (created np now c) = []
      /\ previewPolicyExecution (created np now c) st
         = Throw (TypeError_undefined (lit "platformName"))).
Proof.
  split.
  - intros a I E.
    pose proof (findAsset_registered a I) as F.
    unfold previewPolicyExecution, created.
    cbn [p_assetId p_platformName p_assetType p_accountIdentifier].
    rewrite E, (optionValue_read a I), F.
    split; [reflexivity|].
    assert (O : forall f, field_or_empty (Some a) f = f a).
    { intros f. unfold field_or_empty, or_else. simpl. now destruct (f a). }
    rewrite !O. repeat (split; [reflexivity|]).
    eexists. split; reflexivity.
  - intros NR. apply findAsset_None in NR.
    unfold previewPolicyExecution, created.
    cbn [p_assetId p_platformName p_assetType p_accountIdentifier].
    rewrite NR. repeat split.
Qed.

End ActionPolicies.

(** ** AdminLogin: the credential check of the administrator form *)

Module AdminLogin.
Import JS.

Record Credentials := {
  username : jsstring;
  password : jsstring;
  adminKey : jsstring
}.

(** The component's state together with what its handlers reach: the
    browser's [localStorage] and the router's history, whose last entry is
    the current location. *)
Record State := {
  credentials : Credentials;
  loading : bool;
  error : jsstring;
  localStorage : gmap jsstring jsstring;
  history : list jsstring
}.

Inductive Exn := Thrown (message : jsstring).

(** A handler's body: it reads and updates the state, and returns or
    throws; the updates made before a throw stay. *)
Definition M (A : Type) : Type := State -> completion Exn A * State.

Definition ret {A} (a : A) : M A := fun st => (Return a, st).

Definition seq {A B} (c : M A) (k : A -> M B) : M B :=
  fun st =>
    match c st with
    | (Return a, st') => k a st'
    | (Throw e, st') => (Throw e, st')
    end.

(** [try { c } catch (err) { h err } finally { f }]. *)
Definition try_catch_finally (c : M unit) (h : Exn -> M unit) (f : M unit)
  : M unit :=
  fun st =>
    let '(r, st1) :=
      match c st with
      | (Return tt, st') => (Return tt, st')
      | (Throw e, st') => h e st'
      end in
    match f st1 with
    | (Return tt, st2) => (r, st2)
    | (Throw e, st2) => (Throw e, st2)
    end.

Definition setLoading (b : bool) : M unit := fun st =>
  (Return tt,
   {| credentials := credentials st; loading := b; error := error st;
      localStorage := localStorage st; history := history st |}).

Definition setError (e : jsstring) : M unit := fun st =>
  (Return tt,
   {| credentials := credentials st; loading := loading st; error := e;
      localStorage := localStorage st; history := history st |}).

(** [localStorage.setItem(k, v)], of a storage that accepts the write. *)
Definition setItem (k v : jsstring) : M unit := fun st =>
  (Return tt,
   {| credentials := credentials st; loading := loading st; error := error st;
      localStorage := <[k := v]> (localStorage st); history := history st |}).

(** [localStorage.removeItem(k)]. *)
Definition removeItem (k : jsstring) : M unit := fun st =>
  (Return tt,
   {| credentials := credentials st; loading := loading st; error := error st;
      localStorage := delete k (localStorage st); history := history st |}).

(** [navigate(to)]: a new entry on the history stack. *)
Definition navigate (to : jsstring) : M unit := fun st =>
  (Return tt,
   {| credentials := credentials st; loading := loading st; error := error st;
      localStorage := localStorage st; history := history st ++ [to] |}).

Definition getCredentials : M Credentials := fun st => (Return (credentials st), st).

Definition invalidCredentials : jsstring :=
  lit "Invalid administrator credentials. Please check your username, password, and admin key.".

Definition authenticationFailed : jsstring :=
  lit "Authentication failed. Please try again.".

Definition handleSubmit : M unit :=
  seq (setLoading true) (fun _ =>
  seq (setError []) (fun _ =>
  try_catch_finally
    (seq getCredentials (fun credentials =>
       if streq (username credentials) (lit "admin")
          && streq (password credentials) (lit "admin123")
          && streq (adminKey credentials) (lit "GHOST_ADMIN_2024")
       then
         seq (setItem (lit "userRole") (lit "admin")) (fun _ =>
         seq (setItem (lit "adminAuthenticated") (lit "true")) (fun _ =>
         navigate (lit "/admin")))
       else
         setError invalidCredentials))
    (fun err => setError authenticationFailed)
    (setLoading false))).

Definition handleBackToRoleSelection : M unit :=
  seq (removeItem (lit "userRole")) (fun _ => navigate (lit "/")).

(** The state after a handler ran. *)
Definition after (h : M unit) (st : State) : State := snd (h st).

(** The three constants, matched exactly. *)
Definition valid (c : Credentials) : Prop :=
  username c = lit "admin" /\ password c = lit "admin123"
  /\ adminKey c = lit "GHOST_ADMIN_2024".

Lemma valid_check (c : Credentials) :
  streq (username c) (lit "admin") && streq (password c) (lit "admin123")
  && streq (adminKey c) (lit "GHOST_ADMIN_2024") = true <-> valid c.
Proof.
  unfold valid, streq. rewrite !andb_true_iff, !bool_decide_eq_true. tauto.
Qed.

Lemma handleSubmit_valid (st : State) :
  valid (credentials st) ->
  handleSubmit st =
  (Return tt,
   {| credentials := credentials st; loading := false; error := [];
      localStorage :=
        <[lit "adminAuthenticated" := lit "true"]>
          (<[lit "userRole" := lit "admin"]> (localStorage st));
      history := history st ++ [lit "/admin"] |}).
Proof.
  intros V. apply valid_check in V.
  unfold handleSubmit, seq, try_catch_finally. cbn -[lit].
  rewrite V. reflexivity.
Qed.

Lemma handleSubmit_invalid (st : State) :
  ~ valid (credentials st) ->
  handleSubmit st =
  (Return tt,
   {| credentials := credentials st; loading := false;
      error := invalidCredentials;
      localStorage := localStorage st; history := history st |}).
Proof.
  intros V. rewrite <- valid_check in V. apply not_true_is_false in V.
  unfold handleSubmit, seq, try_catch_finally. cbn -[lit invalidCredentials].
  rewrite V. reflexivity.
Qed.

Lemma valid_dec (c : Credentials) : {valid c} + {~ valid c}.
Proof.
  destruct (streq (username c) (lit "admin") && streq (password c) (lit "admin123")
            && streq (adminKey c) (lit "GHOST_ADMIN_2024")) eqn:E.
  - left. now apply valid_check.
  - right. rewrite <- valid_check. congruence.
Qed.

(** C10: the handler grants access exactly on the three constants.  It
    pushes /admin on the history if and only if the credentials are the
    constants, and then it has stored the admin role and the authenticated
    flag; on every other triple it sets the error message and leaves the
    storage and the history as they were. *)
Theorem handleSubmit_grants_iff_constants (st : State) :
  (valid (credentials st) <->
     history (after handleSubmit st) = history st ++ [lit "/admin"])
  /\ (valid (credentials st) <->
        localStorage (after handleSubmit st)
        = <[lit "adminAuthenticated" := lit "true"]>
            (<[lit "userRole" := lit "admin"]> (localStorage st))
        /\ error (after handleSubmit st) = [])
  /\ (~ valid (credentials st) <->
        localStorage (after handleSubmit st) = localStorage st
        /\ history (after handleSubmit st) = history st
        /\ error (after handleSubmit st) = invalidCredentials)
  /\ fst (handleSubmit st) = Return tt
  /\ loading (after handleSubmit st) = false.
Proof.
  unfold after.
  destruct (valid_dec (credentials st)) as [V|V].
  - rewrite (handleSubmit_valid st V).
    cbn [fst snd history localStorage error loading].
    split; [split; [reflexivity | intros _; exact V]|].
    split; [split; [intros _; split; reflexivity | intros _; exact V]|].
    split; [|split; reflexivity].
    split; [intros NV; contradiction|].
    intros (_ & Hh & _). apply (f_equal length) in Hh.
    rewrite length_app in Hh. simpl in Hh. lia.
  - rewrite (handleSubmit_invalid st V).
    cbn [fst snd history localStorage error loading].
    split; [split; [intros NV; contradiction|]|].
    { intros Hh. apply (f_equal length) in Hh.
      rewrite length_app in Hh. simpl in Hh. lia. }
    split; [split; [intros NV; contradiction | intros [_ He]; discriminate He]|].
    split; [|split; reflexivity].
    split; [intros _; repeat split | intros _; exact V].
Qed.

Example handleSubmit_demo_credentials :
  localStorage
    (after handleSubmit
       {| credentials := {| username := lit "admin"; password := lit "admin123";
                            adminKey := lit "GHOST_ADMIN_2024" |};
          loading := false; error := []; localStorage := ∅;
          history := [lit "/admin-login"] |})
    !! lit "adminAuthenticated" = Some (lit "true").
Proof. reflexivity. Qed.

Example handleSubmit_wrong_key :
  history
    (after handleSubmit
       {| credentials := {| username := lit "admin"; password := lit "admin123";
                            adminKey := lit "ghost_admin_2024" |};
          loading := false; error := []; localStorage := ∅;
          history := [lit "/admin-login"] |})
  = [lit "/admin-login"].
Proof. reflexivity. Qed.

(** *** The other handlers of the form *)

(** The inputs of the form, by their [name] attribute. *)
Inductive Field := f_username | f_password | f_adminKey.

(** [{ ...prev, [name]: value }]. *)
Definition withField (name : Field) (value : jsstring) (prev : Credentials)
  : Credentials :=
  match name with
  | f_username =>
      {| username := value; password := password prev; adminKey := adminKey prev |}
  | f_password =>
      {| username := username prev; password := value; adminKey := adminKey prev |}
  | f_adminKey =>
      {| username := username prev; password := password prev; adminKey := value |}
  end.

Definition setCredentials (f : Credentials -> Credentials) : M unit := fun st =>
  (Return tt,
   {| credentials := f (credentials st); loading := loading st;
      error := error st; localStorage := localStorage st;
      history := history st |}).

Definition handleInputChange (name : Field) (value : jsstring) : M unit :=
  seq (setCredentials (withField name value)) (fun _ => setError []).

(** The user replaces the three inputs and submits. *)
Definition attemptWith (c : Credentials) : M unit :=
  seq (handleInputChange f_username (username c)) (fun _ =>
  seq (handleInputChange f_password (password c)) (fun _ =>
  seq (handleInputChange f_adminKey (adminKey c)) (fun _ =>
  handleSubmit))).

Definition attempts (l : list Credentials) (st : State) : State :=
  foldl (fun st c => after (attemptWith c) st) st l.

Definition constants : Credentials :=
  {| username := lit "admin"; password := lit "admin123";
     adminKey := lit "GHOST_ADMIN_2024" |}.

Lemma attemptWith_credentials (c : Credentials) (st : State) :
  exists st0, attemptWith c st = handleSubmit st0
    /\ credentials st0 = c /\ localStorage st0 = localStorage st
    /\ history st0 = history st.
Proof.
  destruct c as [u p k]. eexists. split; [reflexivity|]. repeat split.
Qed.

Lemma attemptWith_invalid (c : Credentials) (st : State) :
  ~ valid c ->
  localStorage (after (attemptWith c) st) = localStorage st
  /\ history (after (attemptWith c) st) = history st
  /\ error (after (attemptWith c) st) = invalidCredentials.
Proof.
  intros NV. destruct (attemptWith_credentials c st) as (st0 & E & Ec & El & Eh).
  unfold after. rewrite E, handleSubmit_invalid by (now rewrite Ec).
  simpl. now rewrite El, Eh.
Qed.

Lemma attempts_invalid (l : list Credentials) : forall st,
  Forall (fun c => ~ valid c) l ->
  localStorage (attempts l st) = localStorage st
  /\ history (attempts l st) = history st.
Proof.
  induction l as [|c l IH]; intros st F; [now split|].
  inversion F as [|? ? Hc Hl]; subst. simpl.
  destruct (IH (after (attemptWith c) st) Hl) as [El Eh].
  destruct (attemptWith_invalid c st Hc) as (El' & Eh' & _).
  unfold attempts in *. rewrite El, Eh. now split.
Qed.

(** X4: wrong credentials can be tried any number of times: the attempts
    leave the storage and the history as they were, nothing is counted, and
    the constants entered afterwards grant access as they do the first
    time. *)
Theorem failed_attempts_never_lock_out (l : list Credentials) (st : State) :
  Forall (fun c => ~ valid c) l ->
  localStorage (attempts l st) = localStorage st
  /\ history (attempts l st) = history st
  /\ localStorage (after (attemptWith constants) (attempts l st))
     = <[lit "adminAuthenticated" := lit "true"]>
         (<[lit "userRole" := lit "admin"]> (localStorage st))
  /\ history (after (attemptWith constants) (attempts l st))
     = history st ++ [lit "/admin"]
  /\ error (after (attemptWith constants) (attempts l st)) = [].
Proof.
  intros F. destruct (attempts_invalid l st F) as [El Eh].
  split; [exact El|]. split; [exact Eh|].
  destruct (attemptWith_credentials constants (attempts l st))
    as (st0 & E & Ec & El0 & Eh0).
  unfold after. rewrite E, handleSubmit_valid.
  - simpl. now rewrite El0, Eh0, El, Eh.
  - rewrite Ec. repeat split.
Qed.

Definition wrongKey : Credentials :=
  {| username := lit "admin"; password := lit "admin123";
     adminKey := lit "ghost_admin_2024" |}.

Lemma failed_attempts_never_lock_out_witness :
  history (after (attemptWith constants)
             (attempts [wrongKey; wrongKey; wrongKey]
                {| credentials := {| username := []; password := []; adminKey := [] |};
                   loading := false; error := []; localStorage := ∅;
                   history := [lit "/admin-login"] |}))
  = [lit "/admin-login"; lit "/admin"].
Proof.
  refine (proj1 (proj2 (proj2 (proj2
    (failed_attempts_never_lock_out [wrongKey; wrongKey; wrongKey] _ _))))).
  repeat constructor; intros (_ & _ & K); discriminate K.
Defined.

(** X5: going back to the role selection removes [userRole] and nothing
    else: every other key of the storage keeps its value, so after a granted
    login the key [adminAuthenticated] still holds [true]. *)
Theorem back_to_role_selection_keeps_admin_flag (st : State) :
  localStorage (after handleBackToRoleSelection st) !! lit "userRole" = None
  /\ (forall k, k <> lit "userRole" ->
        localStorage (after handleBackToRoleSelection st) !! k
        = localStorage st !! k)
  /\ history (after handleBackToRoleSelection st) = history st ++ [lit "/"]
  /\ (valid (credentials st) ->
      localStorage (after handleBackToRoleSelection (after handleSubmit st))
        !! lit "adminAuthenticated" = Some (lit "true")
      /\ localStorage (after handleBackToRoleSelection (after handleSubmit st))
           !! lit "userRole" = None).
Proof.
  assert (D : forall st', localStorage (after handleBackToRoleSelection st')
                          = delete (lit "userRole") (localStorage st'))
    by reflexivity.
  rewrite !D.
  split; [apply lookup_delete_eq|].
  split; [intros k Nk; now apply lookup_delete_ne|].
  split; [reflexivity|].
  intros V. unfold after at 1 2. rewrite (handleSubmit_valid st V). cbn [snd localStorage].
  split.
  - rewrite lookup_delete_ne by discriminate. apply lookup_insert_eq.
  - apply lookup_delete_eq.
Qed.


End AdminLogin.

(** ** ApiService: the HTTP layer *)

Module ApiService.
Import JS.

Set Warnings "-register-all".

(** The values a response body parses to, and the error objects the
    platform throws.  [Number n] is the Number value of the integer [n]; a
    Number that is no integer is kept with the string its conversion gives,
    which is all the code reads of it. *)
Inductive value :=
  | Undefined
  | Null
  | Bool (b : bool)
  | Number (n : Z)
  | Fractional (rendering : jsstring)
  | Str (s : jsstring)
  | Array (items : list value)
  | Object (props : list (jsstring * value))
  | ErrorObject (name message : jsstring).

(** An error object of the platform: what a rejected [fetch], a failed
    [response.json()] or a property read of [null] throws. *)
Record JsError := { ename : jsstring; emessage : jsstring }.

Definition error_value (e : JsError) : value :=
  ErrorObject (ename e) (emessage e).

(** ToBoolean. *)
Definition truthy_value (v : value) : bool :=
  match v with
  | Undefined | Null => false
  | Bool b => b
  | Number n => negb (n =? 0)
  | Fractional _ => true
  | Str s => truthy s
  | Array _ | Object _ | ErrorObject _ _ => true
  end.

(** [a || b]. *)
Definition or_value (a b : value) : value := if truthy_value a then a else b.

Fixpoint lookup_prop (k : jsstring) (props : list (jsstring * value)) : value :=
  match props with
  | [] => Undefined
  | (k', v) :: r => if streq k' k then v else lookup_prop k r
  end.

(** [v.k] for the property names the code reads of a body, [error] and
    [message], which no primitive wrapper and no array defines. *)
Definition getProp (v : value) (k : jsstring) : completion JsError value :=
  match v with
  | Undefined | Null =>
      Throw {| ename := lit "TypeError";
               emessage := lit "Cannot read properties of null or undefined" |}
  | Object props => Return (lookup_prop k props)
  | ErrorObject n m =>
      Return (if streq k (lit "message") then Str m
              else if streq k (lit "name") then Str n else Undefined)
  | Bool _ | Number _ | Fractional _ | Str _ | Array _ => Return Undefined
  end.

(** Whether an object has the own property [k]. *)
Definition hasOwn (k : jsstring) (props : list (jsstring * value)) : bool :=
  existsb (fun kv => streq (fst kv) k) props.

(** The error of a conversion that finds no primitive. *)
Definition cannotConvert : JsError :=
  {| ename := lit "TypeError";
     emessage := lit "Cannot convert object to primitive value" |}.

(** ToString.  The elements of an array are joined by commas, [null] and
    [undefined] among them as the empty string.  An object parsed from a body
    has the [toString] of [Object.prototype] unless it has an own property of
    that name, which is no function; its [valueOf], own or inherited, gives
    no primitive either, and the conversion throws. *)
Fixpoint toString (v : value) : completion JsError jsstring :=
  match v with
  | Undefined => Return (lit "undefined")
  | Null => Return (lit "null")
  | Bool true => Return (lit "true")
  | Bool false => Return (lit "false")
  | Number n => Return (of_Z n)
  | Fractional s => Return s
  | Str s => Return s
  | Array items =>
      (fix join (l : list value) : completion JsError jsstring :=
         match l with
         | [] => Return []
         | x :: r =>
             s <- match x with
                  | Undefined | Null => Return []
                  | _ => toString x
                  end;;
             match r with
             | [] => Return s
             | _ => t <- join r;; Return (s ++ lit "," ++ t)
             end
         end) items
  | Object props =>
      if hasOwn (lit "toString") props then Throw cannotConvert
      else Return (lit "[object Object]")
  | ErrorObject name message =>
      Return (if truthy name
              then if truthy message then name ++ lit ": " ++ message else name
              else message)
  end.

(** An [ApiError] instance. *)
Record ApiError := {
  message : jsstring;
  status : Z;
  data : value
}.

(** [new ApiError(message, status, data)]: [super(message)] stores the
    conversion to a string of a [message] that is not [undefined], and the
    conversion can throw. *)
Definition newApiError (message_ : value) (status_ : Z) (data_ : value)
  : completion JsError ApiError :=
  m <- match message_ with
       | Undefined => Return []
       | _ => toString message_
       end;;
  Return {| message := m; status := status_; data := data_ |}.

(** What [request] can throw: an [ApiError] instance or anything else. *)
Inductive Thrown :=
  | IsApiError (e : ApiError)
  | Other (e : JsError).

Record Response := {
  ok : bool;
  response_status : Z;
  (** [response.headers.get('content-type')], [None] for [null] *)
  contentType : option jsstring;
  (** what [response.json()] and [response.text()] settle to *)
  json : completion JsError value;
  text : completion JsError jsstring
}.

Inductive Body :=
  | Json (stringified : value)
  | FormData.

Record Options := {
  method : option jsstring;
  headers : option (list (jsstring * jsstring));
  body : option Body
}.

Definition noOptions : Options :=
  {| method := None; headers := None; body := None |}.

Record Config := {
  c_headers : list (jsstring * jsstring);
  c_credentials : jsstring;
  c_method : option jsstring;
  c_body : option Body
}.

(** The [config] object: the spread of [options] comes last, so a [headers]
    property of [options] replaces the merged one. *)
Definition config_of (options : Options) : Config :=
  let merged :=
    (lit "Content-Type", lit "application/json")
      :: default [] (headers options) in
  {| c_headers := default merged (headers options);
     c_credentials := lit "include";
     c_method := method options;
     c_body := body options |}.

Definition lift {A} (c : completion JsError A) : completion Thrown A :=
  match c with
  | Return a => Return a
  | Throw e => Throw (Other e)
  end.

(** The body as [request] reads it, by the content type. *)
Definition readBody (response : Response) : completion JsError value :=
  if match contentType response with
     | Some ct => truthy ct && includes (lit "application/json") ct
     | None => false
     end
  then json response
  else t <- text response;; Return (Object [(lit "message", Str t)]).

(** [data.error || data.message || `HTTP ${response.status}`]. *)
Definition errorMessage (data : value) (status : Z) : completion JsError value :=
  e <- getProp data (lit "error");;
  if truthy_value e then Return e else
  m <- getProp data (lit "message");;
  if truthy_value m then Return m else
  Return (Str (lit "HTTP " ++ of_Z status)).

(** [request(endpoint, options)], given what [fetch(url, config)] settles
    to.  The [try] block covers the reading of the body, the reads of its
    properties and the construction of the [ApiError]. *)
Definition request (fetched : completion JsError Response)
  : completion Thrown value :=
  try_catch
    (response <- lift fetched;;
     data <- lift (readBody response);;
     if negb (ok response) then
       m <- lift (errorMessage data (response_status response));;
       e <- lift (newApiError m (response_status response) data);;
       Throw (IsApiError e)
     else Return data)
    (fun error =>
       match error with
       | IsApiError _ => Throw error
       | Other e =>
           e' <- lift (newApiError
                         (Str (or_else (emessage e) (lit "Network error occurred")))
                         0 (Object [(lit "originalError", error_value e)]));;
           Throw (IsApiError e')
       end).

(** The [ApiError] the catch clause throws for the error [error]. *)
Definition networkError (error : JsError) : ApiError :=
  {| message := or_else (emessage error) (lit "Network error occurred");
     status := 0;
     data := Object [(lit "originalError", error_value error)] |}.

(** *** The methods of the service *)

Inductive ApiCall :=
  | register (userData : value)
  | verifyOTP (otpData : value)
  | resendOTP (otpData : value)
  | login (credentials : value)
  | logout
  | checkSession
  | setupMFA
  | verifyMFA (token : value)
  | getProfile
  | updateProfile (profileData : value)
  | changePassword (passwordData : value)
  | getDigitalAssets
  | addDigitalAsset (assetData : value)
  | getAssetsByType (assetType : jsstring)
  | getTrustedContacts
  | addTrustedContact (contactData : value)
  | updateTrustedContact (contactId : jsstring) (contactData : value)
  | deleteTrustedContact (contactId : jsstring)
  | getActionPolicies
  | createActionPolicy (policyData : value)
  | updateActionPolicy (policyId : jsstring) (policyData : value)
  | deleteActionPolicy (policyId : jsstring)
  | uploadDeathCertificate
  | getVerificationStatus (userEmail : jsstring) (params : jsstring)
  | getUserPolicies (userEmail : jsstring) (params : jsstring)
  | manualPolicyExecution (userEmail : jsstring) (executionData : value)
  | getAuditTrail (userEmail : jsstring) (queryParams : jsstring)
  | deliverNotification (notificationData : value)
  | deliverBatchNotifications (notificationsData : value)
  | getDeliveryStatus (notificationId : jsstring)
  | processRetryQueue (userData : value)
  | getDeliveryStatistics
  | getTemplate (platform actionType : jsstring) (params : jsstring)
  | createCustomTemplate (templateData : value)
  | validateTemplate (templateData : value)
  | generateNotificationFromTemplate (templateData : value)
  | listAvailableTemplates (params : jsstring)
  | getTemplateStatistics
  | getPlatformRequirements (platform : jsstring)
  | executeNotificationPolicies (policyData : value).

Definition post (v : value) : Options :=
  {| method := Some (lit "POST"); headers := None; body := Some (Json v) |}.

Definition put (v : value) : Options :=
  {| method := Some (lit "PUT"); headers := None; body := Some (Json v) |}.

Definition delete_ : Options :=
  {| method := Some (lit "DELETE"); headers := None; body := None |}.

(** The endpoint of a call, as the literal route of its template and the
    interpolated rest (the serialised [URLSearchParams] is an argument), and
    its options. *)
Definition call (c : ApiCall) : jsstring * jsstring * Options :=
  match c with
  | register d => (lit "/auth/register", [], post d)
  | verifyOTP d => (lit "/auth/verify-otp", [], post d)
  | resendOTP d => (lit "/auth/resend-otp", [], post d)
  | login d => (lit "/auth/login", [], post d)
  | logout =>
      (lit "/auth/logout", [],
       {| method := Some (lit "POST"); headers := None; body := None |})
  | checkSession => (lit "/auth/session", [], noOptions)
  | setupMFA => (lit "/auth/mfa/setup", [], noOptions)
  | verifyMFA token =>
      (lit "/auth/mfa/verify", [], post (Object [(lit "token", token)]))
  | getProfile => (lit "/auth/profile", [], noOptions)
  | updateProfile d => (lit "/auth/profile", [], put d)
  | changePassword d => (lit "/auth/change-password", [], post d)
  | getDigitalAssets => (lit "/vault/assets", [], noOptions)
  | addDigitalAsset d => (lit "/vault/assets", [], post d)
  | getAssetsByType t => (lit "/vault/assets/", t, noOptions)
  | getTrustedContacts => (lit "/vault/trusted-contacts", [], noOptions)
  | addTrustedContact d => (lit "/vault/trusted-contacts", [], post d)
  | updateTrustedContact i d => (lit "/vault/trusted-contacts/", i, put d)
  | deleteTrustedContact i => (lit "/vault/trusted-contacts/", i, delete_)
  | getActionPolicies => (lit "/vault/policies", [], noOptions)
  | createActionPolicy d => (lit "/vault/policies", [], post d)
  | updateActionPolicy i d => (lit "/vault/policies/", i, put d)
  | deleteActionPolicy i => (lit "/vault/policies/", i, delete_)
  | uploadDeathCertificate =>
      (lit "/verification/upload-certificate", [],
       {| method := Some (lit "POST"); headers := Some [];
          body := Some FormData |})
  | getVerificationStatus u q =>
      (lit "/verification/status/", u ++ lit "?" ++ q, noOptions)
  | getUserPolicies u q =>
      (lit "/verification/policies/", u ++ lit "?" ++ q, noOptions)
  | manualPolicyExecution u d =>
      (lit "/verification/execute-policies/", u, post d)
  | getAuditTrail u q =>
      (lit "/verification/audit-trail/", u ++ lit "?" ++ q, noOptions)
  | deliverNotification d => (lit "/notifications/deliver", [], post d)
  | deliverBatchNotifications d =>
      (lit "/notifications/deliver/batch", [], post d)
  | getDeliveryStatus i => (lit "/notifications/status/", i, noOptions)
  | processRetryQueue d => (lit "/notifications/retry/process", [], post d)
  | getDeliveryStatistics => (lit "/notifications/statistics", [], noOptions)
  | getTemplate pf a q =>
      (lit "/notifications/templates/", pf ++ lit "/" ++ a ++ lit "?" ++ q,
       noOptions)
  | createCustomTemplate d => (lit "/notifications/templates", [], post d)
  | validateTemplate d =>
      (lit "/notifications/templates/validate", [], post d)
  | generateNotificationFromTemplate d =>
      (lit "/notifications/templates/generate", [], post d)
  | listAvailableTemplates q =>
      (lit "/notifications/templates/list?", q, noOptions)
  | getTemplateStatistics =>
      (lit "/notifications/templates/statistics", [], noOptions)
  | getPlatformRequirements pf =>
      (lit "/notifications/templates/requirements/", pf, noOptions)
  | executeNotificationPolicies d =>
      (lit "/notifications/execute-policies", [], post d)
  end.

Definition route (c : ApiCall) : jsstring := fst (fst (call c)).
Definition endpoint (c : ApiCall) : jsstring := route c ++ snd (fst (call c)).
Definition config (c : ApiCall) : Config := config_of (snd (call c)).

(** The route of the audit trail. *)
Definition auditTrailRoute : jsstring := lit "/verification/audit-trail/".

(** A request that only reads: no method given (fetch then sends a GET) and
    no body. *)
Definition readOnly (cfg : Config) : Prop :=
  c_method cfg = None /\ c_body cfg = None.

(** *** How a request ends *)

Lemma getProp_Return (v : value) (k : jsstring) :
  v <> Null -> v <> Undefined -> exists w, getProp v k = Return w.
Proof. destruct v; simpl; intros; try congruence; eauto. Qed.

Lemma errorMessage_Return (d : value) (st : Z) :
  d <> Null -> d <> Undefined ->
  exists m, errorMessage d st = Return m /\ truthy_value m = true.
Proof.
  intros N U. unfold errorMessage.
  destruct (getProp_Return d (lit "error") N U) as [e ->].
  destruct (getProp_Return d (lit "message") N U) as [m ->]. simpl.
  destruct (truthy_value e) eqn:Te; [eauto|].
  destruct (truthy_value m) eqn:Tm; [eauto|].
  eexists. split; reflexivity.
Qed.

Lemma errorMessage_Throw (d : value) (st : Z) :
  d = Null \/ d = Undefined ->
  exists e, errorMessage d st = Throw e /\ ename e = lit "TypeError".
Proof. intros [-> | ->]; eexists; split; reflexivity. Qed.


Lemma request_unreadable (r : Response) (err : JsError) :
  readBody r = Throw err ->
  request (Return r) = Throw (IsApiError (networkError err)).
Proof. intros B. unfold request. simpl. now rewrite B. Qed.

Lemma request_ok (r : Response) (d : value) :
  readBody r = Return d -> ok r = true -> request (Return r) = Return d.
Proof. intros B K. unfold request. simpl. now rewrite B, K. Qed.

(** A message that is not [undefined] is stored as its string. *)
Lemma newApiError_truthy (m : value) (st : Z) (d : value) :
  truthy_value m = true ->
  newApiError m st d
  = (s <- toString m;; Return {| message := s; status := st; data := d |}).
Proof. now destruct m. Qed.


Lemma errorMessage_truthy (d : value) (st : Z) (m : value) :
  errorMessage d st = Return m -> truthy_value m = true.
Proof.
  unfold errorMessage.
  destruct (getProp d (lit "error")) as [e|]; cbn [bind]; [|discriminate].
  destruct (truthy_value e) eqn:Te; [now intros [= <-]|].
  destruct (getProp d (lit "message")) as [m'|]; cbn [bind]; [|discriminate].
  destruct (truthy_value m') eqn:Tm; now intros [= <-].
Qed.

Lemma request_non_ok (r : Response) (d m : value) (s : jsstring) :
  readBody r = Return d -> ok r = false ->
  errorMessage d (response_status r) = Return m -> toString m = Return s ->
  request (Return r)
  = Throw (IsApiError {| message := s; status := response_status r; data := d |}).
Proof.
  intros B K E T. unfold request. simpl. rewrite B, K. simpl. rewrite E. simpl.
  rewrite (newApiError_truthy m _ _ (errorMessage_truthy _ _ _ E)), T.
  reflexivity.
Qed.


(** C9, as the code has it: whatever [fetch] settles to, [request] returns
    the body or throws an [ApiError], never anything else.  A failed fetch
    gives status 0 with the original error attached, and so does a body that
    cannot be read, whatever the status of the response.  A non-ok response
    whose body was read and gives an error message (its [error], else its
    [message], else [HTTP] and the status, as a string) gives the response's
    status, that message and the body; an ok response whose body was read
    returns it.  Every body but [null] gives a message, and every message
    that is a string, a number or a boolean has its string. *)
Theorem request_throws_only_ApiError (fetched : completion JsError Response) :
  (forall t, request fetched = Throw t -> exists e, t = IsApiError e)
  /\ (forall err, fetched = Throw err ->
        request fetched = Throw (IsApiError (networkError err))
        /\ status (networkError err) = 0
        /\ data (networkError err)
           = Object [(lit "originalError", error_value err)])
  /\ (forall r err, fetched = Return r -> readBody r = Throw err ->
        request fetched = Throw (IsApiError (networkError err)))
  /\ (forall r d m s, fetched = Return r -> readBody r = Return d ->
        ok r = false ->
        errorMessage d (response_status r) = Return m ->
        toString m = Return s ->
        request fetched
        = Throw (IsApiError {| message := s;
                               status := response_status r;
                               data := d |}))
  /\ (forall r d, fetched = Return r -> readBody r = Return d ->
        ok r = true -> request fetched = Return d)
  /\ (forall d st, d <> Null -> d <> Undefined ->
        exists m, errorMessage d st = Return m /\ truthy_value m = true)
  /\ (forall m, match m with Array _ | Object _ => False | _ => True end ->
        exists s, toString m = Return s).
Proof.
  split; [|split; [|split; [|split; [|split; [|split]]]]].
  - intros t. unfold request.
    destruct fetched as [r|err]; simpl; [|intros [= <-]; eauto].
    destruct (readBody r) as [d|err]; simpl; [|intros [= <-]; eauto].
    destruct (ok r); simpl; [discriminate|].
    destruct (errorMessage d (response_status r)) as [m|err]; simpl;
      [|intros [= <-]; eauto].
    destruct (newApiError m (response_status r) d) as [e|err]; simpl;
      intros [= <-]; eauto.
  - intros err ->. repeat split.
  - intros r err -> Hb. now apply request_unreadable.
  - intros r d m s -> Hb Hok Hm Hs. now apply request_non_ok with (m := m).
  - intros r d -> Hb Hok. now apply request_ok.
  - intros d st. apply errorMessage_Return.
  - intros m Hm. destruct m as [| |[|]| | | | | |]; try contradiction;
      eexists; reflexivity.
Qed.

(** A 502 of a gateway that announces JSON and sends none. *)
Definition badGateway : Response := {|
  ok := false; response_status := 502;
  contentType := Some (lit "application/json");
  json := Throw {| ename := lit "SyntaxError";
                   emessage := lit "Unexpected end of JSON input" |};
  text := Return [] |}.

(** C9, a run: the response is non-ok with status 502, and the
    [ApiError] thrown carries status 0. *)
Lemma request_non_ok_with_status_0 :
  ok badGateway = false /\ response_status badGateway = 502
  /\ exists e, request (Return badGateway) = Throw (IsApiError e)
               /\ status e = 0 /\ status e <> response_status badGateway.
Proof.
  split; [reflexivity|]. split; [reflexivity|].
  eexists. split; [reflexivity|]. split; [reflexivity|]. discriminate.
Qed.

Example request_not_found :
  request (Return {| ok := false; response_status := 404;
                     contentType := Some (lit "text/html");
                     json := Throw {| ename := lit "SyntaxError"; emessage := [] |};
                     text := Return (lit "Not Found") |})
  = Throw (IsApiError
             {| message := lit "Not Found"; status := 404;
                data := Object [(lit "message", Str (lit "Not Found"))] |}).
Proof. reflexivity. Qed.

(** *** The calls and the error pages *)

(** The header the JSON calls carry. *)
Definition jsonHeader : jsstring * jsstring :=
  (lit "Content-Type", lit "application/json").

(** X6: every call of the service sends the cookies; a call with no method
    (a GET) or with DELETE has no body; a JSON body goes with POST or PUT and
    with the JSON content type as the only header; the one form-data body is
    the certificate upload, which sends no header of its own. *)
Theorem every_call_is_well_formed (c : ApiCall) :
  c_credentials (config c) = lit "include"
  /\ (c_method (config c) = None -> c_body (config c) = None)
  /\ (c_method (config c) = Some (lit "DELETE") -> c_body (config c) = None)
  /\ (forall v, c_body (config c) = Some (Json v) ->
        (c_method (config c) = Some (lit "POST")
         \/ c_method (config c) = Some (lit "PUT"))
        /\ c_headers (config c) = [jsonHeader])
  /\ (c_body (config c) = Some FormData ->
        c = uploadDeathCertificate /\ c_headers (config c) = [])
  /\ (c_body (config c) = None ->
        c_headers (config c) = [jsonHeader]).
Proof.
  split; [now destruct c|].
  split; [destruct c; intros M; vm_compute in M; try discriminate M; reflexivity|].
  split; [destruct c; intros M; vm_compute in M; try discriminate M; reflexivity|].
  split; [|split].
  - intros v B.
    destruct c; vm_compute in B; try discriminate B;
      (split; [(left; reflexivity) || (right; reflexivity)|reflexivity]).
  - intros B. destruct c; vm_compute in B; try discriminate B.
    split; reflexivity.
  - intros B. destruct c; vm_compute in B; try discriminate B; reflexivity.
Qed.

(** X7: a non-ok response that does not announce JSON is reported with its
    status, with the text of its body as the message, or [HTTP] and the status
    when the body is empty, and with [{message: text}] as data. *)
Theorem text_error_pages (r : Response) (t : jsstring) :
  ok r = false ->
  (forall ct, contentType r = Some ct -> includes (lit "application/json") ct = false) ->
  text r = Return t ->
  request (Return r)
  = Throw (IsApiError
             {| message := (if truthy t then t
                            else lit "HTTP " ++ of_Z (response_status r));
                status := response_status r;
                data := Object [(lit "message", Str t)] |}).
Proof.
  intros K C T.
  assert (B : readBody r = Return (Object [(lit "message", Str t)])).
  { unfold readBody. destruct (contentType r) as [ct|].
    - rewrite (C ct eq_refl), andb_false_r, T. reflexivity.
    - rewrite T. reflexivity. }
  apply request_non_ok
    with (m := Str (if truthy t then t
                    else lit "HTTP " ++ of_Z (response_status r)));
    [exact B|exact K| |reflexivity].
  unfold errorMessage. cbn -[lit of_Z].
  change (streq (lit "message") (lit "error")) with false.
  change (streq (lit "message") (lit "message")) with true. cbn -[lit of_Z].
  destruct t; reflexivity.
Qed.

(** A 503 page in plain text with an empty body. *)
Definition serviceUnavailable : Response := {|
  ok := false; response_status := 503;
  contentType := Some (lit "text/plain");
  json := Throw {| ename := lit "SyntaxError"; emessage := [] |};
  text := Return [] |}.

Lemma text_error_pages_witness :
  request (Return serviceUnavailable)
  = Throw (IsApiError
             {| message := lit "HTTP 503"; status := 503;
                data := Object [(lit "message", Str [])] |}).
Proof.
  refine (text_error_pages serviceUnavailable [] eq_refl _ eq_refl).
  intros ct [= <-]. reflexivity.
Defined.


End ApiService.

(** ** HashChainStore: the append-only ledger under the audit log

    The ledger is part of the back end and not of the client sources; it is
    modelled from sections 3 and 4.1 of the specification. *)

Module HashChainStore.
Import JS.

(** Modelled from the spec: the failure of [append] when the persistence
    cannot durably commit. *)
Inductive Error := StoreUnavailable.

(** Modelled from the spec: [VerificationResult{ok, firstCorruptSequence}]. *)
Record VerificationResult := {
  ok : bool;
  firstCorruptSequence : option nat
}.

Definition intact : VerificationResult :=
  {| ok := true; firstCorruptSequence := None |}.

Definition corruptAt (seq : nat) : VerificationResult :=
  {| ok := false; firstCorruptSequence := Some seq |}.

Section Store.
Context {Digest : Type} `{EqDecision Digest}.

(** Modelled from the spec: the hash [H(prevHash ‖ payloadBytes)], a
    parameter of the ledger. *)
Variable hash : Digest -> list byte -> Digest.

(** Modelled from the spec: the fixed sentinel that the first entry of a
    chain has as its previous hash. *)
Variable sentinel : Digest.

(** Modelled from the spec: a stored record, with the previous hash, the
    opaque payload (the canonical bytes of an audit entry's fields) and the
    entry hash.  Its sequence number is its position, from 1. *)
Record Stored := {
  prevHash : Digest;
  payloadBytes : list byte;
  entryHash : Digest
}.

(** Modelled from the spec: [append(prevHash, payloadBytes) ->
    (entryHash, sequenceNumber)], with [entryHash = H(prevHash ‖ payloadBytes)];
    when the persistence does not commit it fails and writes nothing. *)
Definition append (committed : bool) (chain : list Stored)
    (prev : Digest) (payload : list byte)
  : completion Error (list Stored * (Digest * nat)) :=
  let h := hash prev payload in
  if committed
  then Return (chain ++ [{| prevHash := prev; payloadBytes := payload;
                            entryHash := h |}],
               (h, S (length chain)))
  else Throw StoreUnavailable.

(** The entry hash of the last record of [entries], or [prev] when there
    is none. *)
Definition hashAfter (prev : Digest) (entries : list Stored) : Digest :=
  from_option entryHash prev (last entries).

(** The writer's [prevHash] pointer. *)
Definition head (chain : list Stored) : Digest := hashAfter sentinel chain.

(** Modelled from the spec: [verifyRange] walks the range with the hash
    before each entry (the sentinel before the first entry of the chain): the
    entry must carry that hash as its [prev_hash], which is what links the
    chain, and the hash recomputed from it and the payload is compared to the
    stored [entryHash]; the first mismatch is returned and nothing after it is
    looked at. *)
Fixpoint verifyEntries (prev : Digest) (seq : nat) (entries : list Stored)
  : VerificationResult :=
  match entries with
  | [] => intact
  | e :: rest =>
      if decide (prevHash e = prev /\ hash prev (payloadBytes e) = entryHash e)
      then verifyEntries (entryHash e) (S seq) rest
      else corruptAt seq
  end.

Definition verifyRange (from to : nat) (chain : list Stored) : VerificationResult :=
  verifyEntries (head (take (from - 1) chain)) from
    (take (S to - from) (drop (from - 1) chain)).

(** Verification over the full range. *)
Definition verify (chain : list Stored) : VerificationResult :=
  verifyRange 1 (length chain) chain.

(** A sequence of [append] calls of the one writer of a chain, each with
    its payload and whether the persistence commits; a failed call leaves
    the chain as it was. *)
Fixpoint appendAll (calls : list (bool * list byte)) (chain : list Stored)
  : list Stored :=
  match calls with
  | [] => chain
  | (committed, payload) :: rest =>
      match append committed chain (head chain) payload with
      | Return (chain', _) => appendAll rest chain'
      | Throw _ => appendAll rest chain
      end
  end.

(** A mutation of one stored record made behind the ledger's back: of its
    entry hash, of one byte of its payload, or of its previous hash. *)
Inductive Tamper :=
  | SetEntryHash (h : Digest)
  | SetPayloadByte (i : nat) (b : byte)
  | SetPrevHash (h : Digest).

Definition tamper (t : Tamper) (e : Stored) : Stored :=
  match t with
  | SetEntryHash h =>
      {| prevHash := prevHash e; payloadBytes := payloadBytes e; entryHash := h |}
  | SetPayloadByte i b =>
      {| prevHash := prevHash e; payloadBytes := <[i := b]> (payloadBytes e);
         entryHash := entryHash e |}
  | SetPrevHash h =>
      {| prevHash := h; payloadBytes := payloadBytes e; entryHash := entryHash e |}
  end.

Definition tamperAt (k : nat) (t : Tamper) (chain : list Stored) : list Stored :=
  alter (tamper t) k chain.

(** A mutation of a record's payload together with its entry hash, which
    is recomputed for the new payload. *)
Definition reseal (payload : list byte) (e : Stored) : Stored :=
  {| prevHash := prevHash e; payloadBytes := payload;
     entryHash := hash (prevHash e) payload |}.

(** The mutated payload has the hash of the payload that was written: a
    collision of the hash. *)
Definition collides (t : Tamper) (e : Stored) : Prop :=
  match t with
  | SetPayloadByte i b =>
      hash (prevHash e) (<[i := b]> (payloadBytes e)) = entryHash e
  | SetEntryHash _ | SetPrevHash _ => False
  end.

(** The invariant of an entry after the hash [prev]: it carries [prev], and
    [entry_hash = H(prev_hash ‖ payload)]. *)
Definition follows (prev : Digest) (e : Stored) : Prop :=
  prevHash e = prev /\ hash prev (payloadBytes e) = entryHash e.

(** A hash-linked sequence of entries after the hash [prev]. *)
Fixpoint chained (prev : Digest) (entries : list Stored) : Prop :=
  match entries with
  | [] => True
  | e :: rest => follows prev e /\ chained (entryHash e) rest
  end.

Lemma hashAfter_cons (prev : Digest) (e : Stored) (l : list Stored) :
  hashAfter prev (e :: l) = hashAfter (entryHash e) l.
Proof.
  unfold hashAfter. destruct l as [|x l]; [reflexivity|].
  change (last (e :: x :: l)) with (last (x :: l)).
  now destruct (last (x :: l)) eqn:L; [|apply last_None in L].
Qed.

Lemma chained_app (l1 l2 : list Stored) : forall prev,
  chained prev (l1 ++ l2) <-> chained prev l1 /\ chained (hashAfter prev l1) l2.
Proof.
  induction l1 as [|e l1 IH]; intros prev; simpl; [unfold hashAfter; simpl; tauto|].
  rewrite IH, hashAfter_cons. tauto.
Qed.

Lemma chained_appendAll calls : forall chain,
  chained sentinel chain -> chained sentinel (appendAll calls chain).
Proof.
  induction calls as [|[committed payload] rest IH]; intros chain C; simpl; [exact C|].
  destruct committed; simpl; apply IH; [|exact C].
  apply chained_app. split; [exact C|]. repeat split.
Qed.

Lemma verifyEntries_intact (l : list Stored) : forall prev seq,
  verifyEntries prev seq l = intact <-> chained prev l.
Proof.
  induction l as [|e l IH]; intros prev seq; simpl; [tauto|].
  unfold follows. destruct (decide _) as [F|F]; [rewrite IH; tauto|].
  split; [discriminate|tauto].
Qed.

Lemma verifyEntries_first (l1 l2 : list Stored) (e : Stored) : forall prev seq,
  chained prev l1 -> ~ follows (hashAfter prev l1) e ->
  verifyEntries prev seq (l1 ++ e :: l2) = corruptAt (seq + length l1).
Proof.
  induction l1 as [|x l1 IH]; intros prev seq C U; simpl.
  - rewrite decide_False by exact U. f_equal. lia.
  - destruct C as [Fx C]. rewrite hashAfter_cons in U.
    rewrite decide_True by exact Fx. rewrite IH by assumption. f_equal. lia.
Qed.

Lemma verify_entries (chain : list Stored) :
  verify chain = verifyEntries sentinel 1 chain.
Proof.
  unfold verify, verifyRange. simpl. rewrite Nat.sub_0_r.
  rewrite drop_0, firstn_all. reflexivity.
Qed.

Lemma tamperAt_middle (k : nat) (t : Tamper) (chain : list Stored) (e : Stored) :
  chain !! k = Some e ->
  tamperAt k t chain = take k chain ++ tamper t e :: drop (S k) chain.
Proof.
  unfold tamperAt. revert k. induction chain as [|x chain IH]; intros [|k]; simpl;
    try discriminate.
  - intros [= ->]. now rewrite drop_0.
  - intros L. f_equal. now apply IH.
Qed.

(** On a record of a chain, a mutation that changes it leaves it in place
    exactly when it is a collision. *)
Lemma follows_tamper (prev : Digest) (t : Tamper) (e : Stored) :
  follows prev e -> tamper t e <> e ->
  follows prev (tamper t e) <-> collides t e.
Proof.
  unfold follows. intros [<- Hs] Ne. destruct e as [p x h], t as [h'|i b|p'];
    simpl in *.
  - split; [|tauto]. intros [_ E]. apply Ne. congruence.
  - tauto.
  - split; [|tauto]. intros [E _]. apply Ne. congruence.
Qed.

(** C1, as the ledger has it: verification of the full range succeeds on a
    chain built by any sequence of append calls, and it succeeds on stored
    records exactly when each carries the hash before it and the hash of its
    payload.  After a mutation of one stored record that changes it (its entry
    hash, a byte of its payload, its previous hash), verification returns the
    sequence number of the mutated record, whatever the records after it are,
    unless the new payload has the hash of the old one: that mutation, and
    none of an entry hash or a previous hash, is not found. *)
Theorem verify_finds_first_mutation
    (calls : list (bool * list byte)) (k : nat) (t : Tamper) (e : Stored) :
  appendAll calls [] !! k = Some e ->
  tamper t e <> e ->
  verify (appendAll calls []) = intact
  /\ (forall stored, verify stored = intact <-> chained sentinel stored)
  /\ (verify (tamperAt k t (appendAll calls [])) = intact <-> collides t e)
  /\ (~ collides t e ->
      verify (tamperAt k t (appendAll calls [])) = corruptAt (S k)
      /\ forall later,
           verify (take (S k) (tamperAt k t (appendAll calls [])) ++ later)
           = corruptAt (S k))
  /\ (forall h, t = SetEntryHash h \/ t = SetPrevHash h ->
        verify (tamperAt k t (appendAll calls [])) = corruptAt (S k)).
Proof.
  set (chain := appendAll calls []). intros L Ne.
  assert (C : chained sentinel chain) by (apply chained_appendAll; exact I).
  assert (V : forall stored, verify stored = intact <-> chained sentinel stored)
    by (intros stored; rewrite verify_entries; apply verifyEntries_intact).
  assert (Lk : length (take k chain) = k).
  { apply length_take_le. apply lookup_lt_Some in L. lia. }
  pose proof C as C'. rewrite <- (take_drop_middle chain k e L) in C'.
  apply chained_app in C' as [Ct [Fe Cd]].
  pose proof (follows_tamper _ t e Fe Ne) as FT.
  rewrite (tamperAt_middle k t chain e L).
  assert (D : ~ collides t e ->
              forall later, verify (take k chain ++ tamper t e :: later)
                            = corruptAt (S k)).
  { intros NC later. rewrite verify_entries, verifyEntries_first.
    - rewrite Lk. reflexivity.
    - exact Ct.
    - now rewrite FT. }
  split; [now apply V|]. split; [exact V|]. split; [|split].
  - rewrite V, chained_app. split.
    + intros [_ [Ft _]]. now apply FT.
    + intros Co. split; [exact Ct|]. split; [now apply FT|].
      destruct t; try contradiction. exact Cd.
  - intros NC. split; [now apply D|]. intros later.
    rewrite take_app_ge by lia. rewrite Lk.
    replace (S k - k)%nat with 1%nat by lia. simpl. rewrite take_0.
    rewrite <- app_assoc. simpl. now apply D.
  - intros h [-> | ->]; apply D; simpl; tauto.
Qed.

End Store.

(** *** Two instances

    A checksum with a digest of sixteen bits, as an example of a hash with
    a finite digest, and a ledger whose digest is the list of the payloads
    hashed so far, which has no collisions. *)

#[local] Instance byte_eq_decision : EqDecision byte := byte_eq_dec.

Definition checksum (prev : N) (payload : list byte) : N :=
  foldl (fun h b => (h * 31 + Byte.to_N b) mod 65521)%N prev payload.

Definition journal (prev : list (list byte)) (payload : list byte)
  : list (list byte) := payload :: prev.

(** Three entries [E1, E2, E3], all committed. *)
Definition threeEntries : list (bool * list byte) :=
  [(true, [x45; x31]); (true, [x45; x32]); (true, [x45; x33])].

(** Scenario A: one byte of the second entry is changed in storage, and
    verification returns 2. *)
Lemma verify_finds_first_mutation_witness :
  verify checksum 0%N
    (tamperAt 1 (SetPayloadByte 1 x3f) (appendAll checksum 0%N threeEntries []))
  = {| ok := false; firstCorruptSequence := Some 2%nat |}.
Proof.
  refine (proj1 (proj1 (proj2 (proj2 (proj2
            (verify_finds_first_mutation checksum 0%N threeEntries 1
               (SetPayloadByte 1 x3f)
               {| prevHash := checksum 0%N [x45; x31];
                  payloadBytes := [x45; x32];
                  entryHash := checksum (checksum 0%N [x45; x31]) [x45; x32] |}
               eq_refl _)))) _)).
  - discriminate.
  - vm_compute. discriminate.
Defined.

(** C1, a run: the payload of the last entry is changed in storage and
    its entry hash recomputed, or the last entry is dropped; the stored chain
    is not the one that was appended, and verification succeeds, with the
    hash that has no collision as with the checksum. *)
Lemma resealed_entry_verifies :
  alter (reseal journal [x45; x3f]) 2%nat (appendAll journal [] threeEntries [])
  <> appendAll journal [] threeEntries []
  /\ ok (verify journal []
           (alter (reseal journal [x45; x3f]) 2%nat
              (appendAll journal [] threeEntries []))) = true
  /\ take 2%nat (appendAll journal [] threeEntries [])
     <> appendAll journal [] threeEntries []
  /\ ok (verify journal [] (take 2%nat (appendAll journal [] threeEntries [])))
     = true
  /\ alter (reseal checksum [x45; x3f]) 2%nat
       (appendAll checksum 0%N threeEntries [])
     <> appendAll checksum 0%N threeEntries []
  /\ ok (verify checksum 0%N
           (alter (reseal checksum [x45; x3f]) 2%nat
              (appendAll checksum 0%N threeEntries []))) = true.
Proof.
  split; [discriminate|]. split; [reflexivity|]. split; [discriminate|].
  split; [reflexivity|]. split; [discriminate|reflexivity].
Qed.

End HashChainStore.

(** ** AuditLog: the event journal and what the client can do to it *)

Module AuditLog.
Import JS.

(** Modelled from the spec: the event types of an audit entry. *)
Inductive EventType :=
  | asset_frozen | death_verified | policy_interpreted
  | notification_queued | notification_sent | notification_failed
  | notification_expired.

(** Modelled from the spec: the status of an audit entry. *)
Inductive Status := success | failure | pending.

(** Modelled from the spec: an audit entry before it is written, with the
    fields of section 3 that the caller provides. *)
Record AuditEntryDraft := {
  subject_id : jsstring;
  event_type : EventType;
  description : jsstring;
  ai_service_used : option jsstring;
  input_data : list byte;
  output_data : list byte;
  status : Status
}.

Section Log.
Context {Digest : Type} `{EqDecision Digest}.
Variable hash : Digest -> list byte -> Digest.
Variable sentinel : Digest.

(** Modelled from the spec: the canonical serialisation of an entry's
    fields with its timestamp (stable field order, deterministic encoding),
    a parameter of the log. *)
Variable canonical : AuditEntryDraft -> Z -> list byte.

Abbreviation Stored := (@HashChainStore.Stored Digest).

(** Modelled from the spec: one chain for each subject. *)
Definition chainOf (log : gmap jsstring (list Stored)) (subject : jsstring)
  : list Stored :=
  default [] (log !! subject).

(** Modelled from the spec: [append] fills the timestamp, serialises the
    fields and delegates to the ledger; when the store is unavailable it
    fails and the log is as before. *)
Definition append (committed : bool) (now : Z) (entry : AuditEntryDraft)
    (log : gmap jsstring (list Stored))
  : completion HashChainStore.Error
      (gmap jsstring (list Stored) * (Digest * nat)) :=
  let chain := chainOf log (subject_id entry) in
  r <- HashChainStore.append hash committed chain
         (HashChainStore.head sentinel chain) (canonical entry now);;
  Return (<[subject_id entry := fst r]> log, snd r).

(** Modelled from the spec: [verify] walks the subject's chain. *)
Definition verify (log : gmap jsstring (list Stored)) (subject : jsstring)
  : HashChainStore.VerificationResult :=
  HashChainStore.verify hash sentinel (chainOf log subject).

(** Modelled from the spec: [query] returns a page of the subject's
    entries from a cursor, by ascending sequence, and the next cursor. *)
Definition query (log : gmap jsstring (list Stored)) (subject : jsstring)
    (cursor limit : nat) : list Stored * nat :=
  let page := take limit (drop cursor (chainOf log subject)) in
  (page, (cursor + length page)%nat).

(** Modelled from the spec: the operations exposed over the audit trail
    are [append], [verify] and [query]; there is no update and no delete. *)
Inductive Op :=
  | Append (committed : bool) (now : Z) (entry : AuditEntryDraft)
  | Verify (subject : jsstring)
  | Query (subject : jsstring) (cursor limit : nat).

Definition step (log : gmap jsstring (list Stored)) (op : Op)
  : gmap jsstring (list Stored) :=
  match op with
  | Append committed now entry =>
      match append committed now entry log with
      | Return (log', _) => log'
      | Throw _ => log
      end
  | Verify _ => log
  | Query _ _ _ => log
  end.

Definition run (ops : list Op) (log : gmap jsstring (list Stored))
  : gmap jsstring (list Stored) :=
  foldl step log ops.

Lemma step_prefix (log : gmap jsstring (list Stored)) (op : Op) (subject : jsstring) :
  chainOf log subject `prefix_of` chainOf (step log op) subject.
Proof.
  destruct op as [committed now entry| |]; simpl; try reflexivity.
  destruct committed; simpl; [|reflexivity].
  unfold chainOf at 2. destruct (decide (subject_id entry = subject)) as [<-|Ne].
  - rewrite lookup_insert_eq. simpl. now apply prefix_app_r.
  - rewrite lookup_insert_ne by exact Ne. reflexivity.
Qed.

Lemma run_prefix (ops : list Op) : forall log subject,
  chainOf log subject `prefix_of` chainOf (run ops log) subject.
Proof.
  induction ops as [|op ops IH]; intros log subject; simpl; [reflexivity|].
  etransitivity; [apply step_prefix|apply IH].
Qed.

End Log.

(** C6: the client reaches the audit trail through [getAuditTrail] alone,
    a request with no method and no body (a GET), and the calls that send PUT
    or DELETE go to the profile, the trusted contacts and the policies.  On
    the log, whatever sequence of append, verify and query operations runs,
    each subject's chain only grows at its end: every entry stays at its
    sequence number exactly as it was written. *)
Theorem audit_entries_are_never_rewritten
    {Digest : Type} `{EqDecision Digest}
    (hash : Digest -> list byte -> Digest) (sentinel : Digest)
    (canonical : AuditEntryDraft -> Z -> list byte)
    (ops : list Op) (log : gmap jsstring (list (@HashChainStore.Stored Digest)))
    (subject : jsstring) :
  (forall c, ApiService.route c = ApiService.auditTrailRoute ->
     (exists u q, c = ApiService.getAuditTrail u q)
     /\ ApiService.readOnly (ApiService.config c))
  /\ (forall c,
        ApiService.c_method (ApiService.config c) = Some (lit "PUT")
        \/ ApiService.c_method (ApiService.config c) = Some (lit "DELETE") ->
        ApiService.route c ∈ [lit "/auth/profile";
                              lit "/vault/trusted-contacts/";
                              lit "/vault/policies/"])
  /\ chainOf log subject
       `prefix_of` chainOf (run hash sentinel canonical ops log) subject
  /\ (forall i e, chainOf log subject !! i = Some e ->
        chainOf (run hash sentinel canonical ops log) subject !! i = Some e)
  /\ (length (chainOf log subject)
      <= length (chainOf (run hash sentinel canonical ops log) subject))%nat.
Proof.
  pose proof (run_prefix hash sentinel canonical ops log subject) as P.
  split; [|split; [|split; [exact P|split]]].
  - intros c R. destruct c; try (exfalso; vm_compute in R; discriminate R).
    split; [eauto|]. split; reflexivity.
  - intros c [M|M]; destruct c; try (exfalso; vm_compute in M; discriminate M);
      vm_compute; set_solver.
  - intros i e L. now apply (prefix_lookup_Some _ _ _ _ L P).
  - now apply prefix_length.
Qed.

End AuditLog.

(** ** DeliveryEngine: the state machine of a delivery job

    The engine is part of the back end and not of the client sources; it is
    modelled from sections 3, 4.4 and 7 of the specification. *)

Module DeliveryEngine.
Import JS.

(** Modelled from the spec: the states of a job. *)
Inductive Status := pending | sent | delivered | failed | retry | expired.

(** Modelled from the spec: the delivery methods. *)
Inductive Method := email | api | webhook | form.

(** Modelled from the spec: the error taxonomy of section 7. *)
Inductive Error :=
  | StoreUnavailable
  | ChainCorruption
  | InvalidTemplate
  | MissingRequiredField (fields : list jsstring)
  | TransportError
  | TransportTimeout
  | Expired.

(** What the transport answers to one dispatch: it accepts the request, or
    it fails with an error or by exceeding its timeout. *)
Inductive TransportResult :=
  | Accepted
  | Refused (timeout : bool).

Definition transport_error (timeout : bool) : Error :=
  if timeout then TransportTimeout else TransportError.

(** Modelled from the spec: [maxAttempts], the [base] and the [cap] of the
    backoff, and the amplitude of the jitter. *)
Record Config := {
  maxAttempts : nat;
  base : Z;
  cap : Z;
  jitter : Z
}.

(** Modelled from the spec: [min(cap, base * 2^attempt_count)]. *)
Definition backoff (cfg : Config) (attempt_count : nat) : Z :=
  Z.min (cap cfg) (base cfg * 2 ^ Z.of_nat attempt_count).

Section Engine.
Context {Key : Type} `{EqDecision Key}.

(** Modelled from the spec: a delivery job (section 3). *)
Record DeliveryJob := {
  id : nat;
  policy_id : jsstring;
  platform : jsstring;
  method : Method;
  rendered_payload : list byte;
  idempotency_key : Key;
  status : Status;
  attempt_count : nat;
  last_error : option Error;
  next_attempt_at : option Z;
  created_at : Z;
  updated_at : Z
}.

(** A job after a transition: its status, count, error and schedule are
    set, and [updated_at]. *)
Definition transition (job : DeliveryJob) (s : Status) (count : nat)
    (err : option Error) (next : option Z) (now : Z) : DeliveryJob :=
  {| id := id job; policy_id := policy_id job; platform := platform job;
     method := method job; rendered_payload := rendered_payload job;
     idempotency_key := idempotency_key job;
     status := s; attempt_count := count; last_error := err;
     next_attempt_at := next;
     created_at := created_at job; updated_at := now |}.

(** Modelled from the spec: the terminal states. *)
Definition terminal (s : Status) : bool :=
  match s with delivered | expired => true | _ => false end.

(** Modelled from the spec: on transport success the job is [sent], or
    [delivered] at once for the form method, which has no acknowledgment. *)
Definition on_success (now : Z) (job : DeliveryJob) : DeliveryJob :=
  transition job
    (match method job with form => delivered | _ => sent end)
    (attempt_count job) (last_error job) (next_attempt_at job) now.

(** Modelled from the spec: on transport error the count is incremented;
    below [maxAttempts] the job goes to [retry] with
    [next_attempt_at = now + min(cap, base * 2^attempt_count) ± jitter],
    otherwise to [expired].  [perturbation] is the signed jitter drawn for
    this attempt. *)
Definition on_failure (cfg : Config) (now perturbation : Z) (err : Error)
    (job : DeliveryJob) : DeliveryJob :=
  let count := S (attempt_count job) in
  if (count <? maxAttempts cfg)%nat
  then transition job retry count (Some err)
         (Some (now + backoff cfg count + perturbation)) now
  else transition job expired count (Some err) (next_attempt_at job) now.

(** What happens to a job: a worker's attempt with the transport's answer,
    an acknowledgment, the acknowledgment's timeout, a tick of the sweeper. *)
Inductive Event :=
  | Attempt (now : Z) (result : TransportResult) (perturbation : Z)
  | Ack (now : Z)
  | AckTimeout (now : Z) (perturbation : Z)
  | Tick (now : Z).

Definition due (now : Z) (job : DeliveryJob) : bool :=
  match next_attempt_at job with
  | Some t => t <=? now
  | None => true
  end.

(** Modelled from the spec: the state machine of section 4.4.  A worker
    attempts pending jobs only; the sweeper moves a [retry] job whose
    [next_attempt_at] has come to [pending]; a missing acknowledgment is a
    failure; nothing leaves [delivered] and [expired]. *)
Definition job_step (cfg : Config) (job : DeliveryJob) (ev : Event) : DeliveryJob :=
  match ev, status job with
  | Attempt now Accepted _, pending => on_success now job
  | Attempt now (Refused timeout) j, pending =>
      on_failure cfg now j (transport_error timeout) job
  | Ack now, sent =>
      transition job delivered (attempt_count job) (last_error job)
        (next_attempt_at job) now
  | AckTimeout now j, sent => on_failure cfg now j TransportTimeout job
  | Tick now, retry =>
      if due now job
      then transition job pending (attempt_count job) (last_error job)
             (next_attempt_at job) now
      else job
  | _, _ => job
  end.

Definition job_run (cfg : Config) (evs : list Event) (job : DeliveryJob)
  : DeliveryJob :=
  foldl (job_step cfg) job evs.

















(** *** The engine over its store *)

(** Modelled from the spec: what [submit] is given. *)
Record Request := {
  r_policy_id : jsstring;
  r_platform : jsstring;
  r_method : Method;
  r_rendered_payload : list byte
}.

(** Modelled from the spec: the idempotency key
    [H(policy_id ‖ platform ‖ method ‖ renderedPayloadHash)], a parameter. *)
Variable fingerprint : jsstring -> jsstring -> Method -> list byte -> Key.

(** The job table and the audit entries written, by event type and job. *)
Record Engine := {
  jobs : list DeliveryJob;
  audit : list (AuditLog.EventType * nat)
}.

Definition active_with (key : Key) (job : DeliveryJob) : bool :=
  bool_decide (idempotency_key job = key) && negb (terminal (status job)).

(** Modelled from the spec: [submit] (section 4.4) returns the active job
    with the same key if there is one; otherwise it persists a new pending job and the
    audit entry [notification_queued].  [store_up] tells whether the
    persistence commits; when it does not, the call fails and nothing is
    written. *)
Definition submit (store_up : bool) (now : Z) (req : Request) (st : Engine)
  : completion Error (Engine * DeliveryJob) :=
  let key := fingerprint (r_policy_id req) (r_platform req) (r_method req)
               (r_rendered_payload req) in
  match find (active_with key) (jobs st) with
  | Some job => Return (st, job)
  | None =>
      let job := {|
        id := S (length (jobs st));
        policy_id := r_policy_id req; platform := r_platform req;
        method := r_method req; rendered_payload := r_rendered_payload req;
        idempotency_key := key;
        status := pending; attempt_count := 0; last_error := None;
        next_attempt_at := None; created_at := now; updated_at := now |} in
      if store_up
      then Return ({| jobs := jobs st ++ [job];
                      audit := audit st ++ [(AuditLog.notification_queued, id job)] |},
                   job)
      else Throw StoreUnavailable
  end.

(** The audit entries of an attempt, by the state it ends in. *)
Definition events_of (job : DeliveryJob) : list AuditLog.EventType :=
  match status job with
  | sent | delivered => [AuditLog.notification_sent]
  | retry => [AuditLog.notification_failed]
  | expired => [AuditLog.notification_failed; AuditLog.notification_expired]
  | pending | failed => []
  end.

Definition has_id (i : nat) (job : DeliveryJob) : bool := bool_decide (id job = i).

Definition replace_job (job' : DeliveryJob) (l : list DeliveryJob)
  : list DeliveryJob :=
  map (fun job => if has_id (id job') job then job' else job) l.

(** Modelled from the spec: [attempt] dispatches a pending job to the
    transport and records the transition with its audit entries; a transport
    failure is recorded in the job, a store that does not commit fails the
    call. *)
Definition attempt (cfg : Config) (store_up : bool) (now : Z)
    (result : TransportResult) (perturbation : Z) (job_id : nat) (st : Engine)
  : completion Error Engine :=
  match find (has_id job_id) (jobs st) with
  | Some job =>
      match status job with
      | pending =>
          let job' := job_step cfg job (Attempt now result perturbation) in
          if store_up
          then Return {| jobs := replace_job job' (jobs st);
                         audit := audit st
                                  ++ map (fun e => (e, job_id)) (events_of job') |}
          else Throw StoreUnavailable
      | _ => Return st
      end
  | None => Return st
  end.

(** Modelled from the spec: [status(job_id)]. *)
Definition status_of (job_id : nat) (st : Engine) : option DeliveryJob :=
  find (has_id job_id) (jobs st).






(** The jobs that are active with a key, and the jobs that carry it. *)
Definition active (key : Key) (st : Engine) : list DeliveryJob :=
  filter (fun job => Is_true (active_with key job)) (jobs st).


Lemma job_step_id (cfg : Config) (job : DeliveryJob) (ev : Event) :
  id (job_step cfg job ev) = id job.
Proof.
  unfold job_step, on_success, on_failure.
  destruct ev as [? [|?] ?| | |], (status job); simpl; try reflexivity.
  - now destruct (_ <? _)%nat.
  - now destruct (_ <? _)%nat.
  - now destruct (due _ _).
Qed.

Lemma find_replace_job (job job' : DeliveryJob) (l : list DeliveryJob) :
  id job' = id job -> find (has_id (id job)) l = Some job ->
  find (has_id (id job)) (replace_job job' l) = Some job'.
Proof.
  intros E. unfold replace_job, has_id. rewrite E.
  induction l as [|x l IH]; simpl; [discriminate|].
  destruct (bool_decide (id x = id job)) eqn:D.
  - intros _. now rewrite bool_decide_eq_true_2.
  - rewrite D. exact IH.
Qed.

Lemma find_has_id (i : nat) (l : list DeliveryJob) (job : DeliveryJob) :
  find (has_id i) l = Some job -> id job = i.
Proof.
  intros F. apply find_some in F as [_ F].
  unfold has_id in F. now apply bool_decide_eq_true in F.
Qed.

(** C7: [submit] and [attempt] throw nothing but [StoreUnavailable], and
    only when the store does not commit; with the store up they return
    whatever the transport answers, and a transport failure ends up in the
    job ([last_error], [retry] or [expired]) and not at the caller.  With the
    store down, a submit that has to write and an attempt of a pending job
    fail with [StoreUnavailable], and the state they were given stands. *)
Theorem only_store_failures_reach_the_caller
    (cfg : Config) (store_up : bool) (now : Z) (req : Request)
    (result : TransportResult) (perturbation : Z) (job_id : nat) (st : Engine) :
  (forall e, submit store_up now req st = Throw e ->
             e = StoreUnavailable /\ store_up = false)
  /\ (forall e, attempt cfg store_up now result perturbation job_id st = Throw e ->
                e = StoreUnavailable /\ store_up = false)
  /\ (store_up = true ->
        returns (submit store_up now req st) = true
        /\ returns (attempt cfg store_up now result perturbation job_id st) = true)
  /\ (store_up = false ->
        (find (active_with (fingerprint (r_policy_id req) (r_platform req)
                              (r_method req) (r_rendered_payload req)))
              (jobs st) = None ->
         submit store_up now req st = Throw StoreUnavailable)
        /\ (forall job, status_of job_id st = Some job -> status job = pending ->
              attempt cfg store_up now result perturbation job_id st
              = Throw StoreUnavailable))
  /\ (forall job timeout,
        store_up = true -> result = Refused timeout ->
        status_of job_id st = Some job -> status job = pending ->
        exists st' job',
          attempt cfg store_up now result perturbation job_id st = Return st'
          /\ status_of job_id st' = Some job'
          /\ last_error job' = Some (transport_error timeout)
          /\ (status job' = retry \/ status job' = expired)
          /\ attempt_count job' = S (attempt_count job)).
Proof.
  unfold status_of.
  split; [|split; [|split; [|split]]].
  - intros e. unfold submit. destruct (find _ (jobs st)); [discriminate|].
    destruct store_up; [discriminate|]. intros [= <-]. now split.
  - intros e. unfold attempt. destruct (find _ (jobs st)) as [job|]; [|discriminate].
    destruct (status job); try discriminate.
    destruct store_up; [discriminate|]. intros [= <-]. now split.
  - intros ->. unfold submit, attempt. split.
    + now destruct (find _ (jobs st)).
    + destruct (find _ (jobs st)) as [job|]; [|reflexivity].
      now destruct (status job).
  - intros ->. split.
    + intros F. unfold submit. now rewrite F.
    + intros job F P. unfold attempt. now rewrite F, P.
  - intros job timeout -> -> F P. unfold attempt. rewrite F, P.
    eexists _, _. split; [reflexivity|]. cbn [jobs].
    pose proof (find_has_id _ _ _ F) as <-.
    split; [apply (find_replace_job job); [apply job_step_id|exact F]|].
    unfold job_step. rewrite P. unfold on_failure.
    destruct (_ <? _)%nat; simpl; auto.
Qed.

(** *** Submitting twice *)

(** What holds of every engine the calls reach: the ids of the jobs are
    their positions, and no key has two active jobs. *)
Definition tidy (st : Engine) : Prop :=
  map id (jobs st) = seq 1 (length (jobs st))
  /\ forall key, (length (active key st) <= 1)%nat.





Lemma find_app_r {A} (f : A -> bool) (l1 l2 : list A) :
  find f l1 = None -> find f (l1 ++ l2) = find f l2.
Proof.
  induction l1 as [|y l1 IH]; simpl; [reflexivity|]. now destruct (f y).
Qed.



Lemma find_elem {A} (f : A -> bool) (l : list A) (x : A) :
  find f l = Some x -> x ∈ l /\ f x = true.
Proof. intros F. apply find_some in F as [I E]. now rewrite list_elem_of_In. Qed.







Lemma tidy_fresh (st : Engine) :
  tidy st -> find (has_id (S (length (jobs st)))) (jobs st) = None.
Proof.
  intros [E _]. destruct (find _ (jobs st)) as [x|] eqn:F; [|reflexivity].
  apply find_elem in F as [I D]. apply bool_decide_eq_true in D.
  assert (Ix : id x ∈ map id (jobs st)).
  { change (map id (jobs st)) with (id <$> jobs st). now apply list_elem_of_fmap_2. }
  rewrite E, D in Ix. apply elem_of_seq in Ix. lia.
Qed.




















End Engine.

(** *** A run *)

Definition threeAttempts : Config :=
  {| maxAttempts := 3; base := 1000; cap := 60000; jitter := 100 |}.

Definition queued : @DeliveryJob N := {|
  id := 1; policy_id := lit "policy-7"; platform := lit "ChaseBank";
  method := email; rendered_payload := [];
  idempotency_key := 7%N; status := pending; attempt_count := 0;
  last_error := None; next_attempt_at := None;
  created_at := 0; updated_at := 0 |}.

Definition threeFailures : list Event :=
  [Attempt 10 (Refused false) 50; Tick 2060;
   Attempt 2100 (Refused true) (-100); Tick 6000;
   Attempt 6000 (Refused false) 0].









Example three_failures_expire :
  status (job_run threeAttempts threeFailures queued) = expired
  /\ attempt_count (job_run threeAttempts threeFailures queued) = 3%nat.
Proof. split; reflexivity. Qed.

End DeliveryEngine.

(** ** The session the components share

    RoleSelection, Navigation and UserDashboard read and write the same
    [localStorage] keys as the two login forms. *)

Module Session.
Import JS.

(** What the components share: the browser's [localStorage] and the
    router's history, whose last entry is the current location. *)
Record Browser := {
  storage : gmap jsstring jsstring;
  history : list jsstring
}.

Definition setItem (k v : jsstring) (b : Browser) : Browser :=
  {| storage := <[k := v]> (storage b); history := history b |}.

Definition removeItem (k : jsstring) (b : Browser) : Browser :=
  {| storage := delete k (storage b); history := history b |}.

(** [localStorage.getItem(k)], [None] for [null]. *)
Definition getItem (k : jsstring) (b : Browser) : option jsstring :=
  storage b !! k.

Definition navigate (to : jsstring) (b : Browser) : Browser :=
  {| storage := storage b; history := history b ++ [to] |}.

(** [location.pathname]. *)
Definition pathname (b : Browser) : jsstring := default (lit "/") (last (history b)).

(** The browser part of the administrator form's state. *)
Definition ofAdminLogin (st : AdminLogin.State) : Browser :=
  {| storage := AdminLogin.localStorage st; history := AdminLogin.history st |}.

(** *** RoleSelection *)

Definition handleRoleSelection (role : jsstring) (b : Browser) : Browser :=
  let b := setItem (lit "userRole") role b in
  if streq role (lit "user") then navigate (lit "/user-dashboard") b
  else if streq role (lit "admin") then navigate (lit "/admin-login") b
  else if streq role (lit "trusted-contact") then navigate (lit "/trusted-contact") b
  else b.

(** *** Navigation *)

Definition handleLogout (b : Browser) : Browser :=
  navigate (lit "/")
    (removeItem (lit "userId")
       (removeItem (lit "adminAuthenticated")
          (removeItem (lit "userAuthenticated")
             (removeItem (lit "userRole") b)))).

Definition handleRoleSwitch (b : Browser) : Browser :=
  navigate (lit "/")
    (removeItem (lit "userId")
       (removeItem (lit "adminAuthenticated")
          (removeItem (lit "userAuthenticated")
             (removeItem (lit "userRole") b)))).

(** A link of the bar: its label, its target, and whether it is marked
    active. *)
Record Link := { label : jsstring; target : jsstring; active : bool }.

Record Bar := {
  badge : option jsstring;
  links : list Link;
  sessionButtons : bool
}.

Definition link (path : jsstring) (label_ to_ : jsstring) : Link :=
  {| label := label_; target := to_; active := streq path to_ |}.

(** [userRole === r], where [userRole] may be [null]. *)
Definition roleIs (userRole : option jsstring) (r : jsstring) : bool :=
  match userRole with Some s => streq s r | None => false end.

Definition truthyRole (userRole : option jsstring) : bool :=
  match userRole with Some s => truthy s | None => false end.

(** What [Navigation] renders for the [userRole] it read and the current
    path: nothing on the three entry pages, the bar elsewhere. *)
Definition render (userRole : option jsstring) (path : jsstring) : option Bar :=
  if streq path (lit "/") || streq path (lit "/admin-login")
     || streq path (lit "/login")
  then None
  else Some {|
    badge :=
      if truthyRole userRole
      then Some (if roleIs userRole (lit "admin") then lit "ADMIN"
                 else if roleIs userRole (lit "trusted-contact")
                      then lit "TRUSTED CONTACT" else lit "USER")
      else None;
    links :=
      (if roleIs userRole (lit "user")
       then [link path (lit "Dashboard") (lit "/user-dashboard");
             link path (lit "Register") (lit "/register");
             link path (lit "Digital Vault") (lit "/vault");
             link path (lit "Action Policies") (lit "/policies")]
       else [])
      ++ (if roleIs userRole (lit "trusted-contact")
          then [link path (lit "Verification Portal") (lit "/trusted-contact")]
          else [])
      ++ (if roleIs userRole (lit "admin")
          then [link path (lit "Administration") (lit "/admin")]
          else []);
    sessionButtons := truthyRole userRole
  |}.

(** The bar once the effect on [location] has read the role. *)
Definition view (b : Browser) : option Bar :=
  render (getItem (lit "userRole") b) (pathname b).

(** *** UserDashboard *)

Record UserStats := {
  totalAssets : Z;
  trustedContacts : Z;
  activePolicies : Z;
  verificationStatus : jsstring
}.

Definition initialStats : UserStats :=
  {| totalAssets := 0; trustedContacts := 0; activePolicies := 0;
     verificationStatus := lit "pending" |}.

Definition loadedStats : UserStats :=
  {| totalAssets := 3; trustedContacts := 2; activePolicies := 5;
     verificationStatus := lit "verified" |}.

(** The effect of [UserDashboard] on mount. *)
Definition dashboardEffect (b : Browser) (stats : UserStats) : Browser * UserStats :=
  if negb (roleIs (getItem (lit "userRole") b) (lit "user"))
  then (navigate (lit "/") b, stats)
  else (b, loadedStats).

(** *** What the session handlers do *)

Definition sessionKeys : list jsstring :=
  [lit "userRole"; lit "userAuthenticated"; lit "adminAuthenticated"; lit "userId"].

(** X8: logging out removes the four session keys and no other key, goes
    to the landing page, where the bar is hidden, and switching role does the
    same; after it the flag of a granted administrator login is gone. *)
Theorem logout_clears_the_session (b : Browser) :
  (forall k, k ∈ sessionKeys -> getItem k (handleLogout b) = None)
  /\ (forall k, k ∉ sessionKeys -> getItem k (handleLogout b) = getItem k b)
  /\ history (handleLogout b) = history b ++ [lit "/"]
  /\ view (handleLogout b) = None
  /\ handleRoleSwitch b = handleLogout b
  /\ (forall st,
        getItem (lit "adminAuthenticated")
          (handleLogout (ofAdminLogin (AdminLogin.after AdminLogin.handleSubmit st)))
        = None).
Proof.
  assert (K : forall k b', k ∈ sessionKeys -> getItem k (handleLogout b') = None).
  { intros k b' Hk. unfold getItem, handleLogout, navigate, removeItem. cbn [storage].
    unfold sessionKeys in Hk. rewrite !elem_of_cons in Hk.
    destruct Hk as [->|[->|[->|[->|Hk]]]]; [| | | |now apply elem_of_nil in Hk].
    - rewrite !(lookup_delete_ne _ _ (lit "userRole")) by discriminate.
      apply lookup_delete_eq.
    - rewrite !(lookup_delete_ne _ _ (lit "userAuthenticated")) by discriminate.
      apply lookup_delete_eq.
    - rewrite !(lookup_delete_ne _ _ (lit "adminAuthenticated")) by discriminate.
      apply lookup_delete_eq.
    - apply lookup_delete_eq. }
  split; [intros k; apply K|]. split; [|split; [|split; [|split]]].
  - intros k Hk. unfold getItem, handleLogout, navigate, removeItem. cbn [storage].
    unfold sessionKeys in Hk. rewrite !not_elem_of_cons in Hk.
    destruct Hk as (N1 & N2 & N3 & N4 & _).
    now rewrite !lookup_delete_ne by congruence.
  - reflexivity.
  - unfold view, pathname, handleLogout, navigate. cbn [history].
    rewrite last_snoc. reflexivity.
  - reflexivity.
  - intros st. apply K. unfold sessionKeys. rewrite !elem_of_cons. auto.
Qed.




Lemma handleRoleSelection_storage (role : jsstring) (b : Browser) :
  storage (handleRoleSelection role b) = <[lit "userRole" := role]> (storage b).
Proof. unfold handleRoleSelection. repeat destruct (streq role _); reflexivity. Qed.


Lemma render_links (userRole : option jsstring) (path : jsstring) (bar : Bar) :
  render userRole path = Some bar ->
  links bar =
    (if decide (userRole = Some (lit "user"))
     then [link path (lit "Dashboard") (lit "/user-dashboard");
           link path (lit "Register") (lit "/register");
           link path (lit "Digital Vault") (lit "/vault");
           link path (lit "Action Policies") (lit "/policies")]
     else if decide (userRole = Some (lit "trusted-contact"))
     then [link path (lit "Verification Portal") (lit "/trusted-contact")]
     else if decide (userRole = Some (lit "admin"))
     then [link path (lit "Administration") (lit "/admin")]
     else [])
  /\ sessionButtons bar = truthyRole userRole.
Proof.
  unfold render. destruct (_ || _); [discriminate|]. intros [= <-].
  cbn [links sessionButtons]. split; [|reflexivity].
  destruct userRole as [r|]; cbn [roleIs]; [|reflexivity].
  unfold streq.
  destruct (decide (r = lit "user")) as [->|N1]; [reflexivity|].
  destruct (decide (r = lit "trusted-contact")) as [->|N2]; [reflexivity|].
  destruct (decide (r = lit "admin")) as [->|N3]; [reflexivity|].
  rewrite !bool_decide_eq_false_2 by assumption.
  rewrite !decide_False by congruence. reflexivity.
Qed.

(** A link is not in a list of links with other labels. *)
Ltac other_labels H :=
  repeat (apply elem_of_cons in H as [H|H];
          [apply (f_equal label) in H; vm_compute in H; discriminate H|]);
  now apply elem_of_nil in H.

(** X10: where the bar is shown, its links follow the role it read: the
    administration link exactly for [admin], the vault link exactly for
    [user], the verification link exactly for [trusted-contact], no link for
    any other role; the logout buttons show for every non-empty role. *)
Theorem navigation_follows_the_role_alone
    (userRole : option jsstring) (path : jsstring) (bar : Bar) :
  render userRole path = Some bar ->
  (link path (lit "Administration") (lit "/admin") ∈ links bar
   <-> userRole = Some (lit "admin"))
  /\ (link path (lit "Digital Vault") (lit "/vault") ∈ links bar
      <-> userRole = Some (lit "user"))
  /\ (link path (lit "Verification Portal") (lit "/trusted-contact") ∈ links bar
      <-> userRole = Some (lit "trusted-contact"))
  /\ (userRole <> Some (lit "user") -> userRole <> Some (lit "admin") ->
      userRole <> Some (lit "trusted-contact") -> links bar = [])
  /\ (sessionButtons bar = true <-> exists r, userRole = Some r /\ r <> []).
Proof.
  intros R. destruct (render_links userRole path bar R) as [L B].
  rewrite L, B. clear L B R.
  split; [|split; [|split; [|split]]].
  - destruct (decide (userRole = Some (lit "user"))) as [->|N1];
      [split; [intros H; other_labels H|discriminate]|].
    destruct (decide (userRole = Some (lit "trusted-contact"))) as [->|N2];
      [split; [intros H; other_labels H|discriminate]|].
    destruct (decide (userRole = Some (lit "admin"))) as [->|N3].
    + split; [reflexivity|]. intros _. apply list_elem_of_here.
    + split; [intros H; now apply elem_of_nil in H|congruence].
  - destruct (decide (userRole = Some (lit "user"))) as [->|N1].
    { split; [reflexivity|]. intros _. do 2 apply list_elem_of_further.
      apply list_elem_of_here. }
    destruct (decide (userRole = Some (lit "trusted-contact"))) as [->|N2];
      [split; [intros H; other_labels H|discriminate]|].
    destruct (decide (userRole = Some (lit "admin"))) as [->|N3];
      [split; [intros H; other_labels H|discriminate]|].
    split; [intros H; now apply elem_of_nil in H|congruence].
  - destruct (decide (userRole = Some (lit "user"))) as [->|N1];
      [split; [intros H; other_labels H|discriminate]|].
    destruct (decide (userRole = Some (lit "trusted-contact"))) as [->|N2].
    { split; [reflexivity|]. intros _. apply list_elem_of_here. }
    destruct (decide (userRole = Some (lit "admin"))) as [->|N3];
      [split; [intros H; other_labels H|discriminate]|].
    split; [intros H; now apply elem_of_nil in H|congruence].
  - intros N1 N2 N3. now rewrite !decide_False by assumption.
  - destruct userRole as [[|c r]|]; cbn [truthyRole truthy].
    + split; [discriminate|]. intros (r & [= <-] & Hr). congruence.
    + split; [|reflexivity]. intros _. eexists. split; [reflexivity|discriminate].
    + split; [discriminate|]. intros (r & Hr & _). discriminate.
Qed.


Lemma view_navigate (to_ : jsstring) (b : Browser) :
  view (navigate to_ b) = render (getItem (lit "userRole") b) to_.
Proof.
  unfold view, pathname, navigate, getItem. cbn [history storage].
  now rewrite last_snoc.
Qed.

(** X11: choosing the administrator role on the landing page and going
    to /admin gives the bar a granted administrator login gives, with the
    administration link, while [adminAuthenticated] is as it was before. *)
Theorem admin_bar_without_credentials (b : Browser) (st : AdminLogin.State) :
  AdminLogin.valid (AdminLogin.credentials st) ->
  view (navigate (lit "/admin") (handleRoleSelection (lit "admin") b))
  = view (ofAdminLogin (AdminLogin.after AdminLogin.handleSubmit st))
  /\ view (navigate (lit "/admin") (handleRoleSelection (lit "admin") b))
     = Some {| badge := Some (lit "ADMIN");
               links := [{| label := lit "Administration";
                            target := lit "/admin"; active := true |}];
               sessionButtons := true |}
  /\ getItem (lit "adminAuthenticated")
       (navigate (lit "/admin") (handleRoleSelection (lit "admin") b))
     = getItem (lit "adminAuthenticated") b.
Proof.
  intros V.
  assert (R : getItem (lit "userRole") (handleRoleSelection (lit "admin") b)
              = Some (lit "admin")).
  { unfold getItem. rewrite handleRoleSelection_storage. apply lookup_insert_eq. }
  assert (A : view (ofAdminLogin (AdminLogin.after AdminLogin.handleSubmit st))
              = render (Some (lit "admin")) (lit "/admin")).
  { unfold AdminLogin.after. rewrite (AdminLogin.handleSubmit_valid st V).
    cbn [snd]. unfold view, ofAdminLogin, pathname, getItem.
    cbn [AdminLogin.localStorage AdminLogin.history history storage].
    rewrite last_snoc.
    rewrite lookup_insert_ne by discriminate. now rewrite lookup_insert_eq. }
  rewrite view_navigate, R, A.
  split; [reflexivity|]. split; [reflexivity|].
  unfold getItem, navigate. cbn [storage]. rewrite handleRoleSelection_storage.
  now rewrite lookup_insert_ne by discriminate.
Qed.

Lemma admin_bar_without_credentials_witness :
  view (navigate (lit "/admin")
          (handleRoleSelection (lit "admin") {| storage := ∅; history := [lit "/"] |}))
  = view (ofAdminLogin
            (AdminLogin.after AdminLogin.handleSubmit
               {| AdminLogin.credentials :=
                    {| AdminLogin.username := lit "admin";
                       AdminLogin.password := lit "admin123";
                       AdminLogin.adminKey := lit "GHOST_ADMIN_2024" |};
                  AdminLogin.loading := false; AdminLogin.error := [];
                  AdminLogin.localStorage := ∅;
                  AdminLogin.history := [lit "/"; lit "/admin-login"] |})).
Proof.
  refine (proj1 (admin_bar_without_credentials _ _ _)).
  repeat split.
Defined.

(** X12: the dashboard loads its statistics exactly when [userRole] is
    [user] and goes to the landing page otherwise; after the user role is
    chosen it loads, whether or not [userAuthenticated] is set, and after a
    logout it redirects. *)
Theorem dashboard_checks_the_role_alone (b : Browser) (stats : UserStats) :
  (getItem (lit "userRole") b = Some (lit "user") <->
     dashboardEffect b stats = (b, loadedStats))
  /\ (getItem (lit "userRole") b <> Some (lit "user") <->
        dashboardEffect b stats = (navigate (lit "/") b, stats))
  /\ dashboardEffect (handleRoleSelection (lit "user") b) stats
     = (handleRoleSelection (lit "user") b, loadedStats)
  /\ getItem (lit "userAuthenticated") (handleRoleSelection (lit "user") b)
     = getItem (lit "userAuthenticated") b
  /\ dashboardEffect (handleLogout b) stats
     = (navigate (lit "/") (handleLogout b), stats).
Proof.
  assert (Hu : forall b', getItem (lit "userRole") b' = Some (lit "user") ->
                 dashboardEffect b' stats = (b', loadedStats)).
  { intros b' E. unfold dashboardEffect. now rewrite E. }
  assert (Hn : forall b', getItem (lit "userRole") b' <> Some (lit "user") ->
                 dashboardEffect b' stats = (navigate (lit "/") b', stats)).
  { intros b' N. unfold dashboardEffect.
    destruct (getItem (lit "userRole") b') as [r|]; cbn [roleIs]; [|reflexivity].
    unfold streq. rewrite bool_decide_eq_false_2 by congruence. reflexivity. }
  assert (Hne : forall b' s, (navigate (lit "/") b', s) <> (b', loadedStats)).
  { intros b' s [= E _]. apply (f_equal history) in E. cbn [navigate history] in E.
    apply (f_equal length) in E. rewrite length_app in E. simpl in E. lia. }
  split; [|split; [|split; [|split]]].
  - split; [apply Hu|]. intros E.
    destruct (decide (getItem (lit "userRole") b = Some (lit "user"))) as [Y|N];
      [exact Y|]. rewrite (Hn b N) in E. now apply Hne in E.
  - split; [apply Hn|]. intros E Y. rewrite (Hu b Y) in E.
    symmetry in E. now apply Hne in E.
  - apply Hu. unfold getItem. rewrite handleRoleSelection_storage.
    apply lookup_insert_eq.
  - unfold getItem. rewrite handleRoleSelection_storage.
    now rewrite lookup_insert_ne by discriminate.
  - apply Hn. unfold getItem, handleLogout, navigate, removeItem. cbn [storage].
    rewrite !(lookup_delete_ne _ _ (lit "userRole")) by discriminate.
    now rewrite lookup_delete_eq.
Qed.
Lemma navigation_follows_the_role_alone_witness :
  link (lit "/vault") (lit "Digital Vault") (lit "/vault")
  ∈ [link (lit "/vault") (lit "Dashboard") (lit "/user-dashboard");
     link (lit "/vault") (lit "Register") (lit "/register");
     link (lit "/vault") (lit "Digital Vault") (lit "/vault");
     link (lit "/vault") (lit "Action Policies") (lit "/policies")].
Proof.
  exact (proj2 (proj1 (proj2 (navigation_follows_the_role_alone
                                (Some (lit "user")) (lit "/vault") _ eq_refl)))
               eq_refl).
Defined.

End Session.

(** ** UserLogin: the login form over the service *)

Module UserLogin.
Import JS.
Import ApiService (value, Undefined, Null, Bool, Number, Fractional, Str, Array,
  Object, ErrorObject).

Record Credentials := {
  login_id : jsstring;
  password : jsstring
}.

Record State := {
  credentials : Credentials;
  loading : bool;
  error : value;
  browser : Session.Browser
}.

Definition M (A : Type) : Type :=
  State -> completion ApiService.Thrown A * State.

Definition seq {A B} (c : M A) (k : A -> M B) : M B :=
  fun st =>
    match c st with
    | (Return a, st') => k a st'
    | (Throw e, st') => (Throw e, st')
    end.

(** A value computed without the state, or an exception. *)
Definition eval {A} (c : completion ApiService.Thrown A) : M A :=
  fun st => (c, st).

Definition try_catch_finally (c : M unit) (h : ApiService.Thrown -> M unit)
    (f : M unit) : M unit :=
  fun st =>
    let '(r, st1) :=
      match c st with
      | (Return tt, st') => (Return tt, st')
      | (Throw e, st') => h e st'
      end in
    match f st1 with
    | (Return tt, st2) => (r, st2)
    | (Throw e, st2) => (Throw e, st2)
    end.

Definition setLoading (b : bool) : M unit := fun st =>
  (Return tt,
   {| credentials := credentials st; loading := b; error := error st;
      browser := browser st |}).

Definition setError (e : value) : M unit := fun st =>
  (Return tt,
   {| credentials := credentials st; loading := loading st; error := e;
      browser := browser st |}).

Definition onBrowser (f : Session.Browser -> Session.Browser) : M unit := fun st =>
  (Return tt,
   {| credentials := credentials st; loading := loading st; error := error st;
      browser := f (browser st) |}).

Definition loginFailed : jsstring :=
  lit "Login failed. Please check your credentials.".

(** [err.data?.error], for what was caught: an [ApiError] has [data], any
    other error has none. *)
Definition dataError (err : ApiService.Thrown) : value :=
  match err with
  | ApiService.IsApiError e =>
      match ApiService.getProp (ApiService.data e) (lit "error") with
      | Return v => v
      | Throw _ => Undefined
      end
  | ApiService.Other _ => Undefined
  end.

(** [handleSubmit], given what the [fetch] of [apiService.login] settles
    to.  [localStorage.setItem] converts its value to a string, which throws
    for a value that has none. *)
Definition handleSubmit (fetched : completion ApiService.JsError ApiService.Response)
  : M unit :=
  seq (setLoading true) (fun _ =>
  seq (setError (Str [])) (fun _ =>
  try_catch_finally
    (seq (eval (ApiService.request fetched)) (fun response =>
     seq (onBrowser (Session.setItem (lit "userRole") (lit "user"))) (fun _ =>
     seq (onBrowser (Session.setItem (lit "userAuthenticated") (lit "true"))) (fun _ =>
     seq (eval (ApiService.lift (ApiService.getProp response (lit "user")))) (fun user =>
     seq (eval (ApiService.lift (ApiService.getProp user (lit "user_id")))) (fun user_id =>
     seq (eval (ApiService.lift (ApiService.toString user_id))) (fun userId =>
     seq (onBrowser (Session.setItem (lit "userId") userId)) (fun _ =>
     onBrowser (Session.navigate (lit "/vault"))))))))))
    (fun err => setError (ApiService.or_value (dataError err) (Str loginFailed)))
    (setLoading false))).

Definition handleBackToRoleSelection : M unit :=
  seq (onBrowser (Session.removeItem (lit "userRole"))) (fun _ =>
  onBrowser (Session.navigate (lit "/"))).

Definition handleRegister : M unit := onBrowser (Session.navigate (lit "/register")).

Definition after (h : M unit) (st : State) : State := snd (h st).

(** *** How a login ends *)


(** The state when the [try] block throws after the two first keys were
    stored. *)
Definition halfStored (st : State) : State :=
  {| credentials := credentials st; loading := false;
     error := Str loginFailed;
     browser :=
       Session.setItem (lit "userAuthenticated") (lit "true")
         (Session.setItem (lit "userRole") (lit "user") (browser st)) |}.

Lemma handleSubmit_returned fetched (response : value) (st : State) :
  ApiService.request fetched = Return response ->
  handleSubmit fetched st =
  match ApiService.getProp response (lit "user") with
  | Return user =>
      match ApiService.getProp user (lit "user_id") with
      | Return user_id =>
          match ApiService.toString user_id with
          | Return userId =>
              (Return tt,
               {| credentials := credentials st; loading := false;
                  error := Str [];
                  browser :=
                    Session.navigate (lit "/vault")
                      (Session.setItem (lit "userId") userId
                         (Session.setItem (lit "userAuthenticated") (lit "true")
                            (Session.setItem (lit "userRole") (lit "user")
                               (browser st)))) |})
          | Throw _ => (Return tt, halfStored st)
          end
      | Throw _ => (Return tt, halfStored st)
      end
  | Throw _ => (Return tt, halfStored st)
  end.
Proof.
  intros R. unfold handleSubmit, seq, try_catch_finally, eval, halfStored.
  cbn -[ApiService.request ApiService.getProp loginFailed ApiService.toString lit].
  rewrite R. cbn -[ApiService.getProp loginFailed ApiService.toString lit].
  destruct (ApiService.getProp response (lit "user")) as [user|e];
    cbn -[ApiService.getProp loginFailed ApiService.toString lit]; [|reflexivity].
  destruct (ApiService.getProp user (lit "user_id")) as [uid|e];
    cbn -[ApiService.getProp loginFailed ApiService.toString lit]; [|reflexivity].
  destruct (ApiService.toString uid) as [userId|e];
    cbn -[ApiService.getProp loginFailed ApiService.toString lit]; reflexivity.
Qed.




(** X14: on an ok response whose body has [user.user_id] and that id has a
    string, the three session keys are stored ([userId] as that string) and
    the form goes to /vault.  On an ok response with no [user] object, or
    whose [user_id] has no string, the form shows the credentials message and
    does not navigate, but [userRole] and [userAuthenticated] were already
    stored and stay. *)
Theorem login_success_and_partial_session
    (r : ApiService.Response) (d : value) (st : State) :
  ApiService.readBody r = Return d -> ApiService.ok r = true ->
  (forall user user_id userId,
     ApiService.getProp d (lit "user") = Return user ->
     ApiService.getProp user (lit "user_id") = Return user_id ->
     ApiService.toString user_id = Return userId ->
     after (handleSubmit (Return r)) st
     = {| credentials := credentials st; loading := false; error := Str [];
          browser :=
            Session.navigate (lit "/vault")
              (Session.setItem (lit "userId") userId
                 (Session.setItem (lit "userAuthenticated") (lit "true")
                    (Session.setItem (lit "userRole") (lit "user")
                       (browser st)))) |})
  /\ ((exists e, ApiService.getProp d (lit "user") = Throw e)
      \/ (exists user e,
            ApiService.getProp d (lit "user") = Return user
            /\ ApiService.getProp user (lit "user_id") = Throw e)
      \/ (exists user user_id e,
            ApiService.getProp d (lit "user") = Return user
            /\ ApiService.getProp user (lit "user_id") = Return user_id
            /\ ApiService.toString user_id = Throw e) ->
      after (handleSubmit (Return r)) st = halfStored st
      /\ error (after (handleSubmit (Return r)) st) = Str loginFailed
      /\ Session.history (browser (after (handleSubmit (Return r)) st))
         = Session.history (browser st)
      /\ Session.getItem (lit "userAuthenticated")
           (browser (after (handleSubmit (Return r)) st))
         = Some (lit "true")
      /\ Session.getItem (lit "userRole")
           (browser (after (handleSubmit (Return r)) st))
         = Some (lit "user")).
Proof.
  intros B K. pose proof (ApiService.request_ok r d B K) as R.
  unfold after. rewrite (handleSubmit_returned _ d st R). split.
  - intros user uid userId -> -> ->. reflexivity.
  - intros [(e & ->)|[(user & e & -> & ->)|(user & uid & e & -> & -> & ->)]];
      cbn [snd]; (split; [reflexivity|]); (split; [reflexivity|]);
      (split; [reflexivity|]); split;
      unfold halfStored, Session.getItem, Session.setItem;
      cbn [Session.storage browser].
    all: try apply lookup_insert_eq.
    all: rewrite lookup_insert_ne by discriminate; apply lookup_insert_eq.
Qed.

Definition okJson (d : value) : ApiService.Response :=
  {| ApiService.ok := true; ApiService.response_status := 200;
     ApiService.contentType := Some (lit "application/json");
     ApiService.json := Return d; ApiService.text := Return [] |}.

Definition freshState : State :=
  {| credentials := {| login_id := lit "jane@example.com"; password := lit "pw" |};
     loading := false; error := Str [];
     browser := {| Session.storage := ∅; Session.history := [lit "/login"] |} |}.

Lemma login_success_and_partial_session_witness :
  Session.getItem (lit "userId")
    (browser (after
       (handleSubmit
          (Return (okJson (Object [(lit "user",
                                    Object [(lit "user_id", Number 42)])]))))
       freshState))
  = Some (lit "42")
  /\ error (after (handleSubmit (Return (okJson (Object [])))) freshState)
     = Str loginFailed.
Proof.
  split.
  - rewrite (proj1 (login_success_and_partial_session
               (okJson (Object [(lit "user", Object [(lit "user_id", Number 42)])]))
               _ freshState eq_refl eq_refl)
               (Object [(lit "user_id", Number 42)]) (Number 42) (lit "42")
               eq_refl eq_refl eq_refl).
    reflexivity.
  - exact (proj1 (proj2 (proj2 (login_success_and_partial_session
               (okJson (Object [])) _ freshState eq_refl eq_refl)
               (or_intror (or_introl
                  (ex_intro _ Undefined (ex_intro _ _ (conj eq_refl eq_refl)))))))).
Defined.

(** A body whose [user_id] is 10^21 is stored in exponent form, and one
    whose [user_id] is an object with a [toString] property stores no
    [userId]. *)
Example login_user_id_strings :
  Session.getItem (lit "userId")
    (browser (after
       (handleSubmit
          (Return (okJson (Object [(lit "user",
             Object [(lit "user_id", Number 1000000000000000000000)])]))))
       freshState))
  = Some (lit "1e+21")
  /\ Session.getItem (lit "userId")
       (browser (after
          (handleSubmit
             (Return (okJson (Object [(lit "user",
                Object [(lit "user_id",
                         Object [(lit "toString", Number 0)])])]))))
          freshState))
     = None.
Proof. split; vm_compute; reflexivity. Qed.

End UserLogin.

(** ** UserVault: the asset and contact forms *)

Module UserVault.
Import JS.
Import ApiService (value, Undefined, Null, Bool, Number, Fractional, Str, Array,
  Object, ErrorObject).

Record NewAsset := {
  assetType : jsstring;
  platformName : jsstring;
  accountIdentifier : jsstring;
  credentials : jsstring;
  actionType : jsstring
}.

Definition emptyAsset : NewAsset :=
  {| assetType := lit "email"; platformName := []; accountIdentifier := [];
     credentials := []; actionType := lit "delete" |}.

(** A stored asset: the form's fields, then what the submission adds;
    [createdAt] is the instant whose ISO rendering the code stores. *)
Record Asset := {
  fields : NewAsset;
  id : Z;
  status : jsstring;
  createdAt : Z
}.

Record NewContact := {
  contact_name : jsstring;
  contact_email : jsstring;
  contact_phone : jsstring;
  relationship : jsstring;
  contact_aadhaar_number : jsstring;
  contact_pan_number : jsstring;
  contact_address_line1 : jsstring;
  contact_address_line2 : jsstring;
  contact_city : jsstring;
  contact_state : jsstring;
  contact_pincode : jsstring;
  authorization_level : jsstring
}.

Definition emptyContact : NewContact :=
  {| contact_name := []; contact_email := []; contact_phone := [];
     relationship := []; contact_aadhaar_number := []; contact_pan_number := [];
     contact_address_line1 := []; contact_address_line2 := [];
     contact_city := []; contact_state := []; contact_pincode := [];
     authorization_level := lit "basic" |}.

(** The own properties of the [newContact] object, in the order of its
    literal. *)
Definition contactProps (c : NewContact) : list (jsstring * value) :=
  [(lit "contact_name", Str (contact_name c));
   (lit "contact_email", Str (contact_email c));
   (lit "contact_phone", Str (contact_phone c));
   (lit "relationship", Str (relationship c));
   (lit "contact_aadhaar_number", Str (contact_aadhaar_number c));
   (lit "contact_pan_number", Str (contact_pan_number c));
   (lit "contact_address_line1", Str (contact_address_line1 c));
   (lit "contact_address_line2", Str (contact_address_line2 c));
   (lit "contact_city", Str (contact_city c));
   (lit "contact_state", Str (contact_state c));
   (lit "contact_pincode", Str (contact_pincode c));
   (lit "authorization_level", Str (authorization_level c))].

(** The state of the component; a contact is the object the list holds. *)
Record State := {
  assets : list Asset;
  trustedContacts : list value;
  showAssetModal : bool;
  showContactModal : bool;
  loading : bool;
  newAsset : NewAsset;
  newContact : NewContact
}.

(** [{ ...v }]: the own enumerable properties of [v]; the indices of a
    string or an array, nothing for the other primitives and for errors. *)
Definition spread (v : value) : list (jsstring * value) :=
  match v with
  | Object props => props
  | Array items => imap (fun i x => (of_Z (Z.of_nat i), x)) items
  | Str s => imap (fun i c => (of_Z (Z.of_nat i), Str [c])) s
  | Undefined | Null | Bool _ | Number _ | Fractional _ | ErrorObject _ _ => []
  end.

(** A property written after others in an object literal: it replaces the
    value of its key, or comes last. *)
Fixpoint setProp (k : jsstring) (v : value) (props : list (jsstring * value))
  : list (jsstring * value) :=
  match props with
  | [] => [(k, v)]
  | (k', v') :: r =>
      if streq k' k then (k', v) :: r else (k', v') :: setProp k v r
  end.

(** The contact of the [try] block:
    [{ ...response.contact, id: response.contact.contact_id, createdAt }]. *)
Definition serverContact (response : value) (iso : jsstring)
  : completion ApiService.JsError value :=
  c <- ApiService.getProp response (lit "contact");;
  c' <- ApiService.getProp response (lit "contact");;
  contact_id <- ApiService.getProp c' (lit "contact_id");;
  Return (Object (setProp (lit "createdAt") (Str iso)
                    (setProp (lit "id") contact_id (spread c)))).

(** The contact of the [catch] block. *)
Definition localContact (c : NewContact) (now : Z) (iso : jsstring) : value :=
  Object (setProp (lit "createdAt") (Str iso)
         (setProp (lit "identity_documents_verified") (Str (lit "pending"))
         (setProp (lit "verification_status") (Str (lit "pending"))
         (setProp (lit "status") (Str (lit "pending"))
         (setProp (lit "id") (Number now) (contactProps c)))))).

Definition added (contact : value) (st : State) : State :=
  {| assets := assets st;
     trustedContacts := trustedContacts st ++ [contact];
     showAssetModal := showAssetModal st;
     showContactModal := false;
     loading := false;
     newAsset := newAsset st;
     newContact := emptyContact |}.

(** [handleContactSubmit], given what the [fetch] of
    [apiService.addTrustedContact] settles to, what [Date.now()] returns and
    what [new Date().toISOString()] returns. *)
Definition handleContactSubmit
    (fetched : completion ApiService.JsError ApiService.Response)
    (now : Z) (iso : jsstring) (st : State) : State :=
  match
    (response <- ApiService.request fetched;;
     ApiService.lift (serverContact response iso))
  with
  | Return contact => added contact st
  | Throw error => added (localContact (newContact st) now iso) st
  end.

(** [handleAssetSubmit] sets [loading] and starts a timer; its callback
    keeps the [assets] and the [newAsset] of the render that started it. *)
Record Callback := {
  seen_assets : list Asset;
  seen_newAsset : NewAsset
}.

Definition handleAssetSubmit (st : State) : State * Callback :=
  ({| assets := assets st; trustedContacts := trustedContacts st;
      showAssetModal := showAssetModal st;
      showContactModal := showContactModal st;
      loading := true;
      newAsset := newAsset st; newContact := newContact st |},
   {| seen_assets := assets st; seen_newAsset := newAsset st |}).

(** The callback, run on the state of the time; [now] and [created] are
    its two readings of the clock. *)
Definition timeout (k : Callback) (now created : Z) (st : State) : State :=
  {| assets := seen_assets k
               ++ [{| fields := seen_newAsset k; id := now;
                      status := lit "active"; createdAt := created |}];
     trustedContacts := trustedContacts st;
     showAssetModal := false;
     showContactModal := showContactModal st;
     loading := false;
     newAsset := emptyAsset; newContact := newContact st |}.

Definition removeAsset (i : Z) (st : State) : State :=
  {| assets := filter (fun asset => id asset <> i) (assets st);
     trustedContacts := trustedContacts st;
     showAssetModal := showAssetModal st;
     showContactModal := showContactModal st;
     loading := loading st;
     newAsset := newAsset st; newContact := newContact st |}.

(** [obj.k] of an object of the list. *)
Definition prop (k : jsstring) (contact : value) : value :=
  match contact with
  | Object props => ApiService.lookup_prop k props
  | _ => Undefined
  end.

Lemma lookup_setProp_eq k v props :
  ApiService.lookup_prop k (setProp k v props) = v.
Proof.
  induction props as [|[k' v'] r IH]; simpl.
  - unfold streq. now rewrite bool_decide_eq_true_2.
  - destruct (streq k' k) eqn:E; simpl; rewrite E; [reflexivity|exact IH].
Qed.

Lemma lookup_setProp_ne k k' v props :
  k <> k' ->
  ApiService.lookup_prop k' (setProp k v props) = ApiService.lookup_prop k' props.
Proof.
  intros Ne. induction props as [|[k0 v0] r IH]; simpl.
  - unfold streq. now rewrite bool_decide_eq_false_2.
  - destruct (streq k0 k) eqn:E; simpl.
    + apply bool_decide_eq_true in E. subst k0.
      unfold streq. now rewrite bool_decide_eq_false_2.
    + destruct (streq k0 k'); [reflexivity|exact IH].
Qed.

(** X15: submitting a contact always adds exactly one contact to the
    list, resets the form, closes the modal and ends loading.  When the
    request fails the contact is built from the form, with id [Date.now()]
    and status [pending]; when the response has [contact.contact_id] the
    contact has the properties of the response's contact, with [id] set to
    that id. *)
Theorem contact_submit_always_adds_one
    (fetched : completion ApiService.JsError ApiService.Response)
    (now : Z) (iso : jsstring) (st : State) :
  (exists contact,
     trustedContacts (handleContactSubmit fetched now iso st)
     = trustedContacts st ++ [contact]
     /\ prop (lit "createdAt") contact = Str iso)
  /\ newContact (handleContactSubmit fetched now iso st) = emptyContact
  /\ showContactModal (handleContactSubmit fetched now iso st) = false
  /\ loading (handleContactSubmit fetched now iso st) = false
  /\ assets (handleContactSubmit fetched now iso st) = assets st
  /\ (forall t, ApiService.request fetched = Throw t ->
        trustedContacts (handleContactSubmit fetched now iso st)
        = trustedContacts st ++ [localContact (newContact st) now iso]
        /\ prop (lit "status") (localContact (newContact st) now iso)
           = Str (lit "pending")
        /\ prop (lit "id") (localContact (newContact st) now iso) = Number now
        /\ prop (lit "contact_email") (localContact (newContact st) now iso)
           = Str (contact_email (newContact st)))
  /\ (forall response c i,
        ApiService.request fetched = Return response ->
        ApiService.getProp response (lit "contact") = Return c ->
        ApiService.getProp c (lit "contact_id") = Return i ->
        exists contact,
          trustedContacts (handleContactSubmit fetched now iso st)
          = trustedContacts st ++ [contact]
          /\ prop (lit "id") contact = i
          /\ forall k, k <> lit "id" -> k <> lit "createdAt" ->
               prop k contact = ApiService.lookup_prop k (spread c)).
Proof.
  unfold handleContactSubmit.
  destruct (ApiService.request fetched) as [response|t] eqn:R; cbn [bind].
  - destruct (serverContact response iso) as [contact|e] eqn:S; cbn [ApiService.lift].
    + assert (Sc : exists c i,
                ApiService.getProp response (lit "contact") = Return c
                /\ ApiService.getProp c (lit "contact_id") = Return i
                /\ contact = Object (setProp (lit "createdAt") (Str iso)
                                       (setProp (lit "id") i (spread c)))).
      { unfold serverContact in S.
        destruct (ApiService.getProp response (lit "contact")) as [c|] eqn:Gc;
          [|discriminate].
        cbn [bind] in S.
        destruct (ApiService.getProp c (lit "contact_id")) as [i|] eqn:Gi;
          [|discriminate].
        injection S as <-. exists c, i. repeat split. exact Gi. }
      destruct Sc as (c & i & Gc & Gi & ->).
      split; [eexists; split; [reflexivity|apply lookup_setProp_eq]|].
      repeat (split; [reflexivity|]). split; [discriminate|].
      intros response' c' i' [= <-] Gc' Gi'. rewrite Gc in Gc'. injection Gc' as <-.
      rewrite Gi in Gi'. injection Gi' as <-.
      eexists. split; [reflexivity|]. cbn [prop]. split.
      * rewrite lookup_setProp_ne by discriminate. apply lookup_setProp_eq.
      * intros k N1 N2. now rewrite !lookup_setProp_ne by congruence.
    + split; [eexists; split; [reflexivity|apply lookup_setProp_eq]|].
      repeat (split; [reflexivity|]). split; [discriminate|].
      intros response' c' i' [= <-] Gc' Gi'. exfalso.
      unfold serverContact in S. rewrite Gc' in S. cbn [bind] in S.
      rewrite Gi' in S. discriminate.
  - split; [eexists; split; [reflexivity|apply lookup_setProp_eq]|].
    repeat (split; [reflexivity|]). split; [|discriminate].
    intros t' _. split; [reflexivity|]. repeat split.
Qed.

(** X16: the callback of the asset form writes the list it saw when the
    form was submitted plus the new asset, whatever the list is by then: an
    asset removed during the delay is in the list again afterwards. *)
Theorem asset_timeout_overwrites_the_list
    (st later : State) (now created : Z) :
  assets (timeout (snd (handleAssetSubmit st)) now created later)
  = assets st ++ [{| fields := newAsset st; id := now;
                     status := lit "active"; createdAt := created |}]
  /\ (forall a, a ∈ assets st ->
        (a ∉ assets (removeAsset (id a) (fst (handleAssetSubmit st))))
        /\ (a ∈ assets (timeout (snd (handleAssetSubmit st)) now created
                          (removeAsset (id a) (fst (handleAssetSubmit st))))))
  /\ newAsset (timeout (snd (handleAssetSubmit st)) now created later) = emptyAsset
  /\ loading (fst (handleAssetSubmit st)) = true
  /\ loading (timeout (snd (handleAssetSubmit st)) now created later) = false.
Proof.
  split; [reflexivity|]. split; [|repeat split].
  intros a I. split.
  - cbn [removeAsset handleAssetSubmit fst assets]. intros F.
    apply list_elem_of_filter in F as [Ni _]. now apply Ni.
  - cbn [timeout handleAssetSubmit snd assets seen_assets].
    apply elem_of_app. now left.
Qed.

End UserVault.
